(** * HashGuardian: the digest-and-snapshot core of [hasher.py]

    A shallow embedding of [hasher.py] and the properties of its
    specification, and of the commands of [cli.py] that call it
    ([cmd_hash], [cmd_save], [cmd_verify], [cmd_delete]).  Left out:
    [cmd_list], whose format specifications depend on the type of
    every field of a record, [cmd_compare], which reads files given by
    their paths, and [main], which is [argparse].

    Modelling choices.
    - A Python [str] is the list of its code points, [str]: any number
      below 0x110000, the surrogates 0xD800 to 0xDFFF included, as a
      command-line argument that is not valid UTF-8 gives them.
      [len] is [length]; [str.encode("utf-8")] is [encode_utf8], which
      has no result on a text that holds a surrogate: Python raises
      [UnicodeEncodeError] there.
    - A value of the program is a [pyobj]: what [json.load] can return
      (None, booleans, integers, floats, strings, lists and dicts with
      string keys) is all that the program handles.  A dict is the
      list of its items in insertion order, each key once.
    - The backing file is undecodable, not a JSON text, or a JSON
      document.  A document is given by its abstract syntax, each
      string by the UTF-16 code units that [json.dump] writes as
      [\uXXXX] escapes: [json.load] joins a high surrogate followed by
      a low one into one code point, so a string that holds such a
      pair is not read back as it was written.  Documents are within
      the limits of the interpreter (depth of nesting, digits of an
      integer); opening the file and writing it succeed.
    - The functions of [hasher.py] read and replace one file, read the
      clock and call [hashlib]; they are written in the monad [M] of
      computations over a [World] that may raise a Python exception.
      The world records every such call in its [trace].
    - [hashlib] and the clock are libraries, not code of the
      repository: they are variables of the section [Hasher], and
      return texts of code points below 256.  Examples run on the
      instance [Ref] defined first. *)

From Stdlib Require Import Ascii NArith ZArith Lia.
From stdpp Require Import base option list gmap strings fin_maps fin_sets pretty.

Local Open Scope stdpp_scope.

#[local] Set Warnings "-register-all".

(** ** Python values *)

(** A Python string: its code points. *)
Abbreviation str := (list N).

(** A string literal of the program, all of whose characters are below
    code point 256. *)
Fixpoint lit (s : string) : str :=
  match s with
  | EmptyString => []
  | String c rest => N_of_ascii c :: lit rest
  end.
#[local] Arguments lit : simpl never.

(** The values [json.load] returns, which are all the values the
    program handles.  A float is kept as its [repr]: the program only
    ever compares a float with a string. *)
Inductive pyobj : Type :=
| PNone
| PBool (b : bool)
| PInt (n : Z)
| PFloat (repr : string)
| PStr (s : str)
| PList (items : list pyobj)
| PDict (items : list (str * pyobj)).

(** A dict with string keys: its items, in insertion order. *)
Abbreviation dict V := (list (str * V)).

Fixpoint dict_get {V} (k : str) (d : dict V) : option V :=
  match d with
  | [] => None
  | (k', v) :: d' => if decide (k = k') then Some v else dict_get k d'
  end.

(** [d[k] = v]: an existing key keeps its place, a new one goes last. *)
Fixpoint dict_set {V} (k : str) (v : V) (d : dict V) : dict V :=
  match d with
  | [] => [(k, v)]
  | (k', v') :: d' =>
      if decide (k = k') then (k, v) :: d' else (k', v') :: dict_set k v d'
  end.

(** [del d[k]] *)
Fixpoint dict_del {V} (k : str) (d : dict V) : dict V :=
  match d with
  | [] => []
  | (k', v) :: d' =>
      if decide (k = k') then dict_del k d' else (k', v) :: dict_del k d'
  end.

Definition dict_keys {V} (d : dict V) : list str := d.*1.
Definition dict_values {V} (d : dict V) : list V := d.*2.

(** The dict built from pairs taken in order, a later pair replacing
    the value of an earlier pair of the same key. *)
Definition dict_of_items {V} (items : list (str * V)) : dict V :=
  foldl (λ d kv, dict_set kv.1 kv.2 d) [] items.

(** [v == s] for a string [s]: only a string of the same code points
    equals a string. *)
Definition is_str (v : pyobj) (s : str) : bool :=
  match v with
  | PStr s' => bool_decide (s' = s)
  | _ => false
  end.

(** [s.startswith(p)], and [p in s] for two strings. *)
Fixpoint startswith (s p : str) : bool :=
  match p, s with
  | [], _ => true
  | c :: p', c' :: s' => bool_decide (c = c') && startswith s' p'
  | _ :: _, [] => false
  end.

Fixpoint substring (p s : str) : bool :=
  startswith s p || match s with
                    | [] => false
                    | _ :: s' => substring p s'
                    end.

(** A [NOT_FOUND] result that carries the label beside its message. *)
Definition not_found_with_label (label : str) (r : dict pyobj) : Prop :=
  dict_get (lit "status") r = Some (PStr (lit "NOT_FOUND"))
  ∧ dict_get (lit "label") r = Some (PStr label)
  ∧ ∃ m, dict_get (lit "message") r = Some (PStr m).

(** ** Texts and their encodings *)

Definition is_surrogate (c : N) : bool := ((0xD800 <=? c) && (c <? 0xE000))%N.
Definition is_high (c : N) : bool := ((0xD800 <=? c) && (c <? 0xDC00))%N.
Definition is_low (c : N) : bool := ((0xDC00 <=? c) && (c <? 0xE000))%N.

Definition byte_of_N (n : N) : Byte.byte := default Byte.x00 (Byte.of_N n).

(** The UTF-8 bytes of a code point: one to four bytes, none for a
    surrogate. *)
Definition utf8_of_char (c : N) : option (list Byte.byte) :=
  if (c <? 0x80)%N then Some [byte_of_N c]
  else if (c <? 0x800)%N then
    Some [byte_of_N (0xC0 + c / 0x40); byte_of_N (0x80 + c mod 0x40)]
  else if is_surrogate c then None
  else if (c <? 0x10000)%N then
    Some [byte_of_N (0xE0 + c / 0x1000);
          byte_of_N (0x80 + (c / 0x40) mod 0x40);
          byte_of_N (0x80 + c mod 0x40)]
  else if (c <? 0x110000)%N then
    Some [byte_of_N (0xF0 + c / 0x40000);
          byte_of_N (0x80 + (c / 0x1000) mod 0x40);
          byte_of_N (0x80 + (c / 0x40) mod 0x40);
          byte_of_N (0x80 + c mod 0x40)]
  else None.

(** [text.encode("utf-8")]: [None] when Python raises
    [UnicodeEncodeError]. *)
Fixpoint encode_utf8 (text : str) : option (list Byte.byte) :=
  match text with
  | [] => Some []
  | c :: rest =>
      match utf8_of_char c, encode_utf8 rest with
      | Some bytes, Some data => Some (bytes ++ data)
      | _, _ => None
      end
  end.

(** The code point that the first bytes of a UTF-8 byte string encode,
    and the bytes after them.  No function of [hasher.py] decodes; the
    proofs use it to tell the encodings of two texts apart. *)
Definition utf8_head (data : list Byte.byte) : option (N * list Byte.byte) :=
  match data with
  | [] => None
  | b0 :: rest =>
      let n0 := Byte.to_N b0 in
      if (n0 <? 0x80)%N then Some (n0, rest)
      else if (n0 <? 0xE0)%N then
        match rest with
        | b1 :: rest =>
            Some ((n0 - 0xC0) * 0x40 + (Byte.to_N b1 - 0x80), rest)%N
        | _ => None
        end
      else if (n0 <? 0xF0)%N then
        match rest with
        | b1 :: b2 :: rest =>
            Some ((n0 - 0xE0) * 0x1000 + (Byte.to_N b1 - 0x80) * 0x40
                  + (Byte.to_N b2 - 0x80), rest)%N
        | _ => None
        end
      else
        match rest with
        | b1 :: b2 :: b3 :: rest =>
            Some ((n0 - 0xF0) * 0x40000 + (Byte.to_N b1 - 0x80) * 0x1000
                  + (Byte.to_N b2 - 0x80) * 0x40 + (Byte.to_N b3 - 0x80), rest)%N
        | _ => None
        end
  end.

(** A text that UTF-8 encodes: none of its code points is a
    surrogate. *)
Definition scalar (c : N) : bool := (c <? 0x110000)%N && negb (is_surrogate c).
Definition encodable (text : str) : bool := forallb scalar text.

(** [text.isascii()]: every code point is below 128. *)
Definition isascii (text : str) : bool := forallb (λ c, (c <? 0x80)%N) text.

(** The UTF-16 code units of a string, which [json.dump] writes as
    [\uXXXX] escapes (and as themselves when they are ASCII): two
    surrogates for a code point from 0x10000 on, the code point itself
    otherwise, a surrogate included. *)
Definition utf16_of_char (c : N) : list N :=
  if ((0x10000 <=? c) && (c <? 0x110000))%N
  then [0xD800 + (c - 0x10000) / 0x400; 0xDC00 + (c - 0x10000) mod 0x400]%N
  else [c].

Fixpoint utf16 (s : str) : list N :=
  match s with
  | [] => []
  | c :: rest => utf16_of_char c ++ utf16 rest
  end.

(** The string that [json.load] reads from code units: a high
    surrogate followed by a low one is one code point, any other unit
    is itself. *)
Fixpoint join_surrogates (units : list N) : str :=
  match units with
  | [] => []
  | u :: rest =>
      match rest with
      | u' :: rest' =>
          if is_high u && is_low u'
          then (0x10000 + (u - 0xD800) * 0x400 + (u' - 0xDC00))%N
                 :: join_surrogates rest'
          else u :: join_surrogates rest
      | [] => [u]
      end
  end.

(** A string in which no high surrogate is followed by a low one. *)
Fixpoint pair_free (s : str) : bool :=
  match s with
  | [] => true
  | c :: rest =>
      match rest with
      | c' :: _ => negb (is_high c && is_low c') && pair_free rest
      | [] => true
      end
  end.

(** ** JSON documents *)

(** The abstract syntax of a JSON text has the shapes of the values:
    a string is the list of its code units, an object the list of its
    members as written, a key possibly more than once. *)
Abbreviation json := pyobj.

(** [json.dump(v, f, indent=2)] *)
Fixpoint json_dump (v : pyobj) : json :=
  match v with
  | PStr s => PStr (utf16 s)
  | PList items => PList (map json_dump items)
  | PDict items => PDict (map (λ kv, (utf16 kv.1, json_dump kv.2)) items)
  | _ => v
  end.

(** [json.load(f)], on a document *)
Fixpoint json_load (j : json) : pyobj :=
  match j with
  | PStr units => PStr (join_surrogates units)
  | PList items => PList (map json_load items)
  | PDict members =>
      PDict (dict_of_items
               (map (λ kv, (join_surrogates kv.1, json_load kv.2)) members))
  | _ => j
  end.

(** A value that is read back from its dump as it is: no string of it
    holds a surrogate pair, and no dict of it a key twice. *)
Fixpoint clean (v : pyobj) : bool :=
  match v with
  | PStr s => pair_free s
  | PList items => forallb clean items
  | PDict items =>
      bool_decide (NoDup items.*1)
      && forallb (λ kv, pair_free kv.1 && clean kv.2) items
  | _ => true
  end.

(** What the backing file holds: bytes that [open(..., "r")] cannot
    decode, a text that is not JSON, or a JSON document. *)
Inductive file_content : Type :=
| Undecodable
| Malformed
| Document (j : json).

(** ** Exceptions *)

(** The exceptions of the program.  In Python, [UnicodeEncodeError],
    [UnicodeDecodeError] and [JSONDecodeError] are subclasses of
    [ValueError]; [ValueError] here is the one [compute_hash] raises
    itself.  The messages of the others are left out. *)
Inductive exn : Type :=
| ValueError (message : str)
| UnicodeEncodeError
| UnicodeDecodeError
| JSONDecodeError
| FileNotFoundError
| KeyError (key : str)
| TypeError
| AttributeError.

Inductive outcome (A : Type) : Type :=
| Return (a : A)
| Raise (e : exn).
Arguments Return {A} a.
Arguments Raise {A} e.

(** [x in container], for a string [x]: a key of a dict, an element of
    a list, a substring of a string. *)
Definition contains (container : pyobj) (x : str) : outcome bool :=
  match container with
  | PDict items =>
      Return (match dict_get x items with Some _ => true | None => false end)
  | PList items => Return (existsb (λ v, is_str v x) items)
  | PStr s => Return (substring x s)
  | _ => Raise TypeError
  end.

(** [container[key]], for a string [key] *)
Definition getitem (container : pyobj) (key : str) : outcome pyobj :=
  match container with
  | PDict items =>
      match dict_get key items with
      | Some v => Return v
      | None => Raise (KeyError key)
      end
  | _ => Raise TypeError
  end.

(** [container[key] = v], returning the container *)
Definition setitem (container : pyobj) (key : str) (v : pyobj)
  : outcome pyobj :=
  match container with
  | PDict items => Return (PDict (dict_set key v items))
  | _ => Raise TypeError
  end.

(** [del container[key]], returning the container *)
Definition delitem (container : pyobj) (key : str) : outcome pyobj :=
  match container with
  | PDict items =>
      match dict_get key items with
      | Some _ => Return (PDict (dict_del key items))
      | None => Raise (KeyError key)
      end
  | _ => Raise TypeError
  end.

(** [list(container.values())] *)
Definition values (container : pyobj) : outcome (list pyobj) :=
  match container with
  | PDict items => Return (dict_values items)
  | _ => Raise AttributeError
  end.

(** The truth value of a value in an [if]. *)
Definition truthy (v : pyobj) : bool :=
  match v with
  | PNone => false
  | PBool b => b
  | PInt n => negb (bool_decide (n = 0%Z))
  | PFloat repr =>
      negb (bool_decide (repr = "0.0")) && negb (bool_decide (repr = "-0.0"))
  | PStr s => negb (bool_decide (s = []))
  | PList items => negb (bool_decide (items = []))
  | PDict items => negb (bool_decide (items = []))
  end.

(** [f"{s:<width}"]: the string, then spaces up to the width. *)
Definition ljust (width : nat) (s : str) : str :=
  s ++ replicate (width - length s) 32%N.

(** The colours and signs of [cli.py]: the escape character is 27, the
    signs are U+2714, U+2718, U+26A0 and U+2014. *)
Definition GREEN : str := 27%N :: lit "[92m".
Definition RED : str := 27%N :: lit "[91m".
Definition YELLOW : str := 27%N :: lit "[93m".
Definition CYAN : str := 27%N :: lit "[96m".
Definition BOLD : str := 27%N :: lit "[1m".
Definition DIM : str := 27%N :: lit "[2m".
Definition RESET : str := 27%N :: lit "[0m".
Definition NL : str := [10%N].
Definition CHECK_MARK : str := [10004%N].
Definition BALLOT_X : str := [10008%N].
Definition WARNING_SIGN : str := [9888%N].
Definition EM_DASH : str := [8212%N].

(** How a command of [cli.py] ends. *)
Inductive cli_outcome (A : Type) : Type :=
| Done (a : A)
| Failed (e : exn).
Arguments Done {A} a.
Arguments Failed {A} e.

(** The console of a command: what the successive calls of
    [sys.stdin.read()] return, and the strings printed so far. *)
Record Console : Type := MkConsole {
  stdin : list str;
  stdout : list str
}.

(** [ALGORITHMS] and [VAULT_FILE] of [hasher.py]; the default value of
    every [algorithm] parameter is ["sha256"]. *)
Definition ALGORITHMS : list str :=
  [lit "md5"; lit "sha1"; lit "sha256"; lit "sha512"].
Definition VAULT_FILE : str := lit "hash_vault.json".
Definition default_algorithm : str := lit "sha256".

(** The text of [f"Unsupported algorithm. Choose from: {ALGORITHMS}"]. *)
Definition unsupported_algorithm : str :=
  lit "Unsupported algorithm. Choose from: ['md5', 'sha1', 'sha256', 'sha512']".

(** The [entry] dict of [save_hash], with its five keys. *)
Definition snapshot (label algorithm hash : str) (length : nat)
    (timestamp : str) : pyobj :=
  PDict [(lit "label", PStr label);
         (lit "algorithm", PStr algorithm);
         (lit "hash", PStr hash);
         (lit "length", PInt (Z.of_nat length));
         (lit "timestamp", PStr timestamp)].

(** ** Sequences of requests *)

(** A call of [save_hash] or of [delete_snapshot]. *)
Inductive request : Type :=
| Save (label text algorithm : str)
| Delete (label : str).

Definition request_label (r : request) : str :=
  match r with Save l _ _ => l | Delete l => l end.

(** A request that the store takes as it is: a supported algorithm, a
    text that encodes, a label without a surrogate pair. *)
Definition admissible (r : request) : Prop :=
  match r with
  | Save l t a => a ∈ ALGORITHMS ∧ encodable t ∧ pair_free l
  | Delete _ => True
  end.

(** The labels saved and not deleted since, and the last request made
    on a label. *)
Fixpoint saved_labels (rs : list request) (acc : gset str) : gset str :=
  match rs with
  | [] => acc
  | Save l _ _ :: rs' => saved_labels rs' ({[l]} ∪ acc)
  | Delete l :: rs' => saved_labels rs' (acc ∖ {[l]})
  end.

Fixpoint last_request (rs : list request) (l : str) : option request :=
  match rs with
  | [] => None
  | r :: rs' =>
      match last_request rs' l with
      | Some r' => Some r'
      | None => if decide (request_label r = l) then Some r else None
      end
  end.

Fixpoint save_calls (rs : list request) : nat :=
  match rs with
  | [] => 0
  | Save _ _ _ :: rs' => S (save_calls rs')
  | Delete _ :: rs' => save_calls rs'
  end.

(** ** A reference instance of the libraries

    Used to run the model on concrete inputs: the digest of a byte
    string under an algorithm is the algorithm's name followed by the
    bytes, the clock shows its tick, and a list or a dict is shown
    without its items. *)
Module Ref.
Definition hexdigest (algorithm : str) (data : list Byte.byte) : string :=
  String.string_of_list_ascii (ascii_of_N <$> algorithm)
  +:+ ":" +:+ String.string_of_list_byte data.
Definition isoformat_now (tick : nat) : string :=
  "tick-" +:+ String.string_of_list_byte (replicate tick Byte.x2b).
Definition str_of_items (v : pyobj) : str :=
  match v with
  | PList _ => lit "[...]"
  | _ => lit "{...}"
  end.
End Ref.

(** ** The world *)

Inductive event : Type :=
| PathExists (present : bool)
| FileRead
| FileWrite (j : json)
| Digest (algorithm : str) (data : list Byte.byte)
| ClockRead.

Record World : Type := MkWorld {
  vault_file : option file_content;
  clock : nat;
  trace : list event
}.

Definition log (e : event) (w : World) : World :=
  MkWorld (vault_file w) (clock w) (trace w ++ [e]).

Definition M (A : Type) : Type := World → outcome A * World.

Definition ret {A} (a : A) : M A := λ w, (Return a, w).

Definition raise {A} (e : exn) : M A := λ w, (Raise e, w).

Definition bind {A B} (m : M A) (k : A → M B) : M B :=
  λ w, match m w with
       | (Return a, w') => k a w'
       | (Raise e, w') => (Raise e, w')
       end.

Notation "x <- m ;; k" := (bind m (λ x, k))
  (at level 100, m at next level, right associativity).

(** An operation on values, which returns or raises. *)
Definition lift {A} (o : outcome A) : M A := λ w, (o, w).

(** [Path(VAULT_FILE).exists()] *)
Definition path_exists : M bool :=
  λ w, let present := bool_decide (is_Some (vault_file w)) in
       (Return present, log (PathExists present) w).

(** [with open(VAULT_FILE, "r") as f: json.load(f)] *)
Definition read_json : M pyobj :=
  λ w, match vault_file w with
       | None => (Raise FileNotFoundError, w)
       | Some Undecodable => (Raise UnicodeDecodeError, log FileRead w)
       | Some Malformed => (Raise JSONDecodeError, log FileRead w)
       | Some (Document j) => (Return (json_load j), log FileRead w)
       end.

(** [with open(VAULT_FILE, "w") as f: json.dump(vault, f, indent=2)] *)
Definition write_json (vault : pyobj) : M unit :=
  λ w, (Return tt,
        MkWorld (Some (Document (json_dump vault))) (clock w)
                (trace w ++ [FileWrite (json_dump vault)])).

(** The events a computation added to the trace. *)
Definition added (w w' : World) (evs : list event) : Prop :=
  trace w' = trace w ++ evs.

(** Calls on the backing file, and calls of [hashlib]. *)
Definition store_event (e : event) : bool :=
  match e with
  | PathExists _ | FileRead | FileWrite _ => true
  | Digest _ _ | ClockRead => false
  end.

Definition write_event (e : event) : bool :=
  match e with FileWrite _ => true | _ => false end.

Definition digest_event (e : event) : bool :=
  match e with Digest _ _ => true | _ => false end.

(** The value that [load_vault] returns in a world: the empty dict
    when the file is absent, else what [json.load] reads from the
    file's document. *)
Definition stored (w : World) (vault : pyobj) : Prop :=
  match vault_file w with
  | None => vault = PDict []
  | Some (Document j) => vault = json_load j
  | Some _ => False
  end.

(** The world after a [load_vault]. *)
Definition after_load (w : World) : World :=
  match vault_file w with
  | None => log (PathExists false) w
  | Some _ => log FileRead (log (PathExists true) w)
  end.

(** Every record of the vault is a dict that carries the label it is
    stored under. *)
Definition labelled (vault : dict pyobj) : Prop :=
  ∀ k e, dict_get k vault = Some e →
    ∃ fields, e = PDict fields ∧ dict_get (lit "label") fields = Some (PStr k).

(** The [label] of each value, for a list of records. *)
Definition label_of (e : pyobj) : option pyobj :=
  match e with
  | PDict fields => dict_get (lit "label") fields
  | _ => None
  end.

(** ** [cli.py]: the commands

    A command reads [sys.stdin], prints on [sys.stdout] and calls
    [hasher.py].  The console holds what the successive calls of
    [sys.stdin.read()] return (the empty string once they are used up)
    and the strings printed, one per call of [print].  A [print]
    succeeds whatever it is given. *)

Definition CLI (A : Type) : Type :=
  Console → World → cli_outcome A * Console * World.

Definition cli_ret {A} (a : A) : CLI A := λ c w, (Done a, c, w).

Definition cli_fail {A} (e : exn) : CLI A := λ c w, (Failed e, c, w).

Definition cli_bind {A B} (m : CLI A) (k : A → CLI B) : CLI B :=
  λ c w, match m c w with
         | (Done a, c', w') => k a c' w'
         | (Failed e, c', w') => (Failed e, c', w')
         end.

Notation "x <~ m ;; k" := (cli_bind m (λ x, k))
  (at level 100, m at next level, right associativity).

(** A call of a function of [hasher.py]. *)
Definition call {A} (m : M A) : CLI A :=
  λ c w, match m w with
         | (Return a, w') => (Done a, c, w')
         | (Raise e, w') => (Failed e, c, w')
         end.

(** [sys.stdin.read()] *)
Definition stdin_read : CLI str :=
  λ c w, (Done (hd [] (stdin c)), MkConsole (tl (stdin c)) (stdout c), w).

(** [print(s)] *)
Definition print (s : str) : CLI unit :=
  λ c w, (Done tt, MkConsole (stdin c) (stdout c ++ [s]), w).

(** [d[k]], on a result dict *)
Definition result_get (k : str) (d : dict pyobj) : CLI pyobj :=
  match dict_get k d with
  | Some v => cli_ret v
  | None => cli_fail (KeyError k)
  end.

(** [args.text or sys.stdin.read()]: [None] and the empty string are
    false. *)
Definition text_or_stdin (text : option str) : CLI str :=
  match text with
  | Some t => if bool_decide (t = []) then stdin_read else cli_ret t
  | None => stdin_read
  end.

(** [for x in xs: body(x)] *)
Fixpoint for_each {A} (xs : list A) (body : A → CLI unit) : CLI unit :=
  match xs with
  | [] => cli_ret tt
  | x :: xs' => _ <~ body x ;; for_each xs' body
  end.

Section Hasher.

(** [hashlib.new(algorithm)], [update(data)], [hexdigest()]: a text of
    hexadecimal digits. *)
Variable hexdigest : str → list Byte.byte → string.

(** [datetime.datetime.now().isoformat()] at the clock's n-th reading:
    a text of digits and separators. *)
Variable isoformat_now : nat → string.

(** [str(v)] for a list or a dict, which shows the [repr] of every
    item. *)
Variable str_of_items : pyobj → str.

(** [str(v)], as an f-string shows a value. *)
Definition str_of (v : pyobj) : str :=
  match v with
  | PNone => lit "None"
  | PBool b => lit (if b then "True" else "False")
  | PInt n => lit (pretty n)
  | PFloat repr => lit repr
  | PStr s => s
  | PList _ | PDict _ => str_of_items v
  end.

(** [h = hashlib.new(algorithm); h.update(data); h.hexdigest()] *)
Definition hashlib_hexdigest (algorithm : str) (data : list Byte.byte)
  : M str :=
  λ w, (Return (lit (hexdigest algorithm data)), log (Digest algorithm data) w).

(** [datetime.datetime.now().isoformat()] *)
Definition now_isoformat : M str :=
  λ w, (Return (lit (isoformat_now (clock w))),
        MkWorld (vault_file w) (S (clock w)) (trace w ++ [ClockRead])).

(** ** [hasher.py] *)

(** The algorithm is whatever the caller or a record of the vault
    gives.  [algorithm not in ALGORITHMS] compares it with each name;
    past that test it is one of the names, and [text.encode] comes
    before any call of the hash object. *)
Definition compute_hash (text : str) (algorithm : pyobj) : M str :=
  if negb (existsb (is_str algorithm) ALGORITHMS)
  then raise (ValueError unsupported_algorithm)
  else match algorithm with
       | PStr name =>
           match encode_utf8 text with
           | Some data => hashlib_hexdigest name data
           | None => raise UnicodeEncodeError
           end
       | _ => raise TypeError
       end.

(** The comprehension [{k: f(k) for k in keys}], filling [acc]. *)
Fixpoint dict_comprehension {V} (f : str → M V) (keys : list str)
    (acc : dict V) : M (dict V) :=
  match keys with
  | [] => ret acc
  | k :: keys' => v <- f k ;; dict_comprehension f keys' (dict_set k v acc)
  end.

Definition compute_all_hashes (text : str) : M (dict str) :=
  dict_comprehension (λ algo, compute_hash text (PStr algo)) ALGORITHMS [].

Definition load_vault : M pyobj :=
  present <- path_exists ;;
  if present then read_json else ret (PDict []).

Definition save_vault (vault : pyobj) : M unit :=
  write_json vault.

Definition save_hash (label text algorithm : str) : M pyobj :=
  vault <- load_vault ;;
  h <- compute_hash text (PStr algorithm) ;;
  ts <- now_isoformat ;;
  let entry := snapshot label algorithm h (length text) ts in
  vault <- lift (setitem vault label entry) ;;
  _ <- save_vault vault ;;
  ret entry.

(** [entry["algorithm"]] is read a second time for the result, to the
    value of the first read. *)
Definition verify_text (label text : str) : M (dict pyobj) :=
  vault <- load_vault ;;
  present <- lift (contains vault label) ;;
  if negb present then
    ret [(lit "status", PStr (lit "NOT_FOUND"));
         (lit "message",
          PStr (lit "No snapshot found for label '" ++ label ++ lit "'"))]
  else
    entry <- lift (getitem vault label) ;;
    algorithm <- lift (getitem entry (lit "algorithm")) ;;
    current_hash <- compute_hash text algorithm ;;
    original_hash <- lift (getitem entry (lit "hash")) ;;
    let is_intact := is_str original_hash current_hash in
    original_length <- lift (getitem entry (lit "length")) ;;
    saved_at <- lift (getitem entry (lit "timestamp")) ;;
    ret [(lit "status", PStr (lit (if is_intact then "INTACT" else "MODIFIED")));
         (lit "label", PStr label);
         (lit "algorithm", algorithm);
         (lit "original_hash", original_hash);
         (lit "current_hash", PStr current_hash);
         (lit "original_length", original_length);
         (lit "current_length", PInt (Z.of_nat (length text)));
         (lit "saved_at", saved_at);
         (lit "is_intact", PBool is_intact)].

Definition compare_texts (text1 text2 algorithm : str) : M (dict pyobj) :=
  hash1 <- compute_hash text1 (PStr algorithm) ;;
  hash2 <- compute_hash text2 (PStr algorithm) ;;
  ret [(lit "algorithm", PStr algorithm);
       (lit "hash_1", PStr hash1);
       (lit "hash_2", PStr hash2);
       (lit "identical", PBool (bool_decide (hash1 = hash2)));
       (lit "length_1", PInt (Z.of_nat (length text1)));
       (lit "length_2", PInt (Z.of_nat (length text2)))].

Definition list_snapshots : M (list pyobj) :=
  vault <- load_vault ;;
  lift (values vault).

Definition delete_snapshot (label : str) : M bool :=
  vault <- load_vault ;;
  present <- lift (contains vault label) ;;
  if present then
    vault <- lift (delitem vault label) ;;
    _ <- save_vault vault ;;
    ret true
  else ret false.

(** ** Vocabulary of the properties *)

(** The record [save_hash] builds in a world for a text of the given
    bytes, and the world it leaves when the store held the dict
    [vault]. *)
Definition saved_entry (label text algorithm : str) (data : list Byte.byte)
    (w : World) : pyobj :=
  snapshot label algorithm (lit (hexdigest algorithm data)) (length text)
    (lit (isoformat_now (clock w))).

Definition after_save (label text algorithm : str) (data : list Byte.byte)
    (vault : dict pyobj) (w : World) : World :=
  let j := json_dump (PDict (dict_set label
                               (saved_entry label text algorithm data w) vault)) in
  MkWorld (Some (Document j)) (S (clock w))
    (trace (after_load w) ++ [Digest algorithm data; ClockRead; FileWrite j]).

(** What a sequence of requests made of the record of a label: the one
    of the last save, none after a delete, the initial one when no
    request named the label. *)
Definition settled (rs : list request) (v0 v : dict pyobj) (l : str)
  : Prop :=
  match last_request rs l with
  | None => dict_get l v = dict_get l v0
  | Some (Delete _) => dict_get l v = None
  | Some (Save _ t a) =>
      ∃ data ts, encode_utf8 t = Some data
        ∧ dict_get l v
          = Some (snapshot l a (lit (hexdigest a data)) (length t) ts)
  end.

(** Running a sequence of requests, each result dropped. *)
Definition perform (r : request) : M unit :=
  match r with
  | Save l t a => _ <- save_hash l t a ;; ret tt
  | Delete l => _ <- delete_snapshot l ;; ret tt
  end.

Fixpoint perform_all (rs : list request) : M unit :=
  match rs with
  | [] => ret tt
  | r :: rs' => _ <- perform r ;; perform_all rs'
  end.

(** A computation that reads and writes nothing but the trace, to
    which it adds no write. *)
Definition reads_only {A} (m : M A) : Prop :=
  ∀ w, vault_file (snd (m w)) = vault_file w
       ∧ clock (snd (m w)) = clock w
       ∧ ∃ evs, added w (snd (m w)) evs
                ∧ Forall (λ e, write_event e = false) evs.

(** ** The commands *)

Definition cmd_hash (text : option str) (algorithm : str) (all : bool)
  : CLI unit :=
  text <~ text_or_stdin text ;;
  if all then
    result <~ call (compute_all_hashes text) ;;
    _ <~ print (NL ++ BOLD ++ lit "Hashes for input text:" ++ RESET) ;;
    for_each result (λ '(algo, h),
      print (lit "  " ++ CYAN ++ ljust 8 algo ++ RESET ++ lit " " ++ h))
  else
    h <~ call (compute_hash text (PStr algorithm)) ;;
    print (NL ++ lit "  " ++ CYAN ++ algorithm ++ RESET
           ++ lit ": " ++ BOLD ++ h ++ RESET).

(** The fields of the record that [save_hash] returned are strings. *)
Definition cmd_save (label : str) (text : option str) (algorithm : str)
  : CLI unit :=
  text <~ text_or_stdin text ;;
  entry <~ call (save_hash label text algorithm) ;;
  _ <~ print (NL ++ lit "  " ++ GREEN ++ CHECK_MARK
              ++ lit " Snapshot saved!" ++ RESET) ;;
  v <~ call (lift (getitem entry (lit "label"))) ;;
  _ <~ print (lit "  Label     : " ++ BOLD ++ str_of v ++ RESET) ;;
  v <~ call (lift (getitem entry (lit "algorithm"))) ;;
  _ <~ print (lit "  Algorithm : " ++ str_of v) ;;
  v <~ call (lift (getitem entry (lit "hash"))) ;;
  _ <~ print (lit "  Hash      : " ++ str_of v) ;;
  v <~ call (lift (getitem entry (lit "timestamp"))) ;;
  print (lit "  Saved at  : " ++ str_of v ++ NL).

Definition cmd_verify (label : str) (text : option str) : CLI unit :=
  text <~ text_or_stdin text ;;
  result <~ call (verify_text label text) ;;
  status <~ result_get (lit "status") result ;;
  if is_str status (lit "NOT_FOUND") then
    message <~ result_get (lit "message") result ;;
    print (NL ++ lit "  " ++ YELLOW ++ WARNING_SIGN ++ lit " "
           ++ str_of message ++ RESET ++ NL)
  else
    is_intact <~ result_get (lit "is_intact") result ;;
    _ <~ (if truthy is_intact then
            print (NL ++ lit "  " ++ GREEN ++ BOLD ++ CHECK_MARK
                   ++ lit " INTACT " ++ EM_DASH
                   ++ lit " Text has NOT been modified." ++ RESET)
          else
            print (NL ++ lit "  " ++ RED ++ BOLD ++ BALLOT_X
                   ++ lit " MODIFIED " ++ EM_DASH
                   ++ lit " Text has been tampered with!" ++ RESET)) ;;
    v <~ result_get (lit "label") result ;;
    _ <~ print (NL ++ lit "  Label           : " ++ str_of v) ;;
    v <~ result_get (lit "algorithm") result ;;
    _ <~ print (lit "  Algorithm       : " ++ str_of v) ;;
    v <~ result_get (lit "original_hash") result ;;
    _ <~ print (lit "  Original hash   : " ++ DIM ++ str_of v ++ RESET) ;;
    v <~ result_get (lit "current_hash") result ;;
    _ <~ print (lit "  Current hash    : " ++ DIM ++ str_of v ++ RESET) ;;
    v <~ result_get (lit "original_length") result ;;
    _ <~ print (lit "  Original length : " ++ str_of v ++ lit " chars") ;;
    v <~ result_get (lit "current_length") result ;;
    _ <~ print (lit "  Current length  : " ++ str_of v ++ lit " chars") ;;
    v <~ result_get (lit "saved_at") result ;;
    print (lit "  Snapshot date   : " ++ str_of v ++ NL).

(** The lines that [cmd_verify] prints for a result that is not
    [NOT_FOUND]. *)
Definition verify_report (is_intact : bool) (label algorithm original_hash
    current_hash original_length current_length saved_at : str) : list str :=
  [if is_intact
   then NL ++ lit "  " ++ GREEN ++ BOLD ++ CHECK_MARK ++ lit " INTACT "
        ++ EM_DASH ++ lit " Text has NOT been modified." ++ RESET
   else NL ++ lit "  " ++ RED ++ BOLD ++ BALLOT_X ++ lit " MODIFIED "
        ++ EM_DASH ++ lit " Text has been tampered with!" ++ RESET;
   NL ++ lit "  Label           : " ++ label;
   lit "  Algorithm       : " ++ algorithm;
   lit "  Original hash   : " ++ DIM ++ original_hash ++ RESET;
   lit "  Current hash    : " ++ DIM ++ current_hash ++ RESET;
   lit "  Original length : " ++ original_length ++ lit " chars";
   lit "  Current length  : " ++ current_length ++ lit " chars";
   lit "  Snapshot date   : " ++ saved_at ++ NL].

Definition cmd_delete (label : str) : CLI unit :=
  deleted <~ call (delete_snapshot label) ;;
  if deleted then
    print (NL ++ lit "  " ++ GREEN ++ CHECK_MARK
           ++ lit " Snapshot '" ++ label ++ lit "' deleted." ++ RESET ++ NL)
  else
    print (NL ++ lit "  " ++ YELLOW ++ WARNING_SIGN
           ++ lit " Snapshot '" ++ label ++ lit "' not found." ++ RESET ++ NL).

(** ** Values *)

Lemma pyobj_nested_ind (P : pyobj → Prop) :
  P PNone → (∀ b, P (PBool b)) → (∀ n, P (PInt n)) → (∀ r, P (PFloat r)) →
  (∀ s, P (PStr s)) →
  (∀ items, Forall P items → P (PList items)) →
  (∀ items, Forall (λ kv, P kv.2) items → P (PDict items)) →
  ∀ v, P v.
Proof.
  intros HN HB HI HF HS HL HD.
  fix IH 1. intros [| b | n | r | s |items|items].
  - exact HN.
  - apply HB.
  - apply HI.
  - apply HF.
  - apply HS.
  - apply HL. induction items as [|x items IHi]; constructor; [apply IH|exact IHi].
  - apply HD. induction items as [|[k x] items IHi]; constructor; [apply IH|exact IHi].
Qed.

Lemma utf16_of_char_cases c :
  (utf16_of_char c = [c] ∧ (c < 0x10000 ∨ 0x110000 ≤ c)%N)
  ∨ (∃ h l, utf16_of_char c = [h; l] ∧ is_high h = true ∧ is_low l = true
            ∧ is_high c = false ∧ is_low c = false
            ∧ (0x10000 + (h - 0xD800) * 0x400 + (l - 0xDC00))%N = c).
Proof.
  unfold utf16_of_char.
  destruct ((0x10000 <=? c) && (c <? 0x110000))%N eqn:E.
  - right. apply andb_true_iff in E as [E1 E2].
    apply N.leb_le in E1. apply N.ltb_lt in E2.
    eexists _, _. split; [reflexivity|].
    unfold is_high, is_low.
    pose proof (N.mod_upper_bound (c - 0x10000) 0x400 ltac:(done)).
    pose proof (N.div_mod (c - 0x10000) 0x400 ltac:(done)).
    set (q := ((c - 0x10000) / 0x400)%N) in *.
    set (r := ((c - 0x10000) mod 0x400)%N) in *. clearbody q r.
    repeat split.
    + apply andb_true_iff. split; [apply N.leb_le|apply N.ltb_lt]; lia.
    + apply andb_true_iff. split; [apply N.leb_le|apply N.ltb_lt]; lia.
    + apply andb_false_iff. right. apply N.ltb_ge. lia.
    + apply andb_false_iff. right. apply N.ltb_ge. lia.
    + lia.
  - left. split; [done|]. apply andb_false_iff in E as [E|E].
    + apply N.leb_gt in E. lia.
    + apply N.ltb_ge in E. lia.
Qed.

Lemma join_surrogates_cons_other u rest :
  is_high u = false → join_surrogates (u :: rest) = u :: join_surrogates rest.
Proof. intros E. simpl. destruct rest as [|u' rest']; [done|]. by rewrite E. Qed.

Lemma join_surrogates_cons_not_low u u' rest :
  is_low u' = false →
  join_surrogates (u :: u' :: rest) = u :: join_surrogates (u' :: rest).
Proof. intros E. simpl. by rewrite E, andb_false_r. Qed.

Lemma join_surrogates_pair u u' rest :
  is_high u = true → is_low u' = true →
  join_surrogates (u :: u' :: rest)
  = (0x10000 + (u - 0xD800) * 0x400 + (u' - 0xDC00))%N :: join_surrogates rest.
Proof. intros E E'. simpl. by rewrite E, E'. Qed.

Lemma is_high_not_low u : is_high u = true → is_low u = false.
Proof.
  unfold is_high, is_low. intros E. apply andb_true_iff in E as [_ E].
  apply N.ltb_lt in E. apply andb_false_iff. left. apply N.leb_gt. lia.
Qed.

Lemma utf16_head c s :
  ∃ u rest, utf16 (c :: s) = u :: rest ∧ is_low u = is_low c.
Proof.
  change (utf16 (c :: s)) with (utf16_of_char c ++ utf16 s).
  destruct (utf16_of_char_cases c) as [[-> _]|(h & l & -> & Hh & _ & _ & Nl & _)].
  - by eexists _, _.
  - eexists _, _. split; [done|]. by rewrite Nl, is_high_not_low.
Qed.

Lemma utf16_of_char_surrogate c :
  is_high c = true ∨ is_low c = true → utf16_of_char c = [c].
Proof.
  intros Su. destruct (utf16_of_char_cases c) as [[-> _]|(h & l & _ & _ & _ & Nh & Nl & _)];
    [done|]. rewrite Nh, Nl in Su. by destruct Su.
Qed.

(** Reading back the code units that [json.dump] wrote for a string
    joins the surrogate pairs of the string itself. *)
Lemma join_utf16 s : join_surrogates (utf16 s) = join_surrogates s.
Proof.
  assert (Two : ∀ n s, length s < n → join_surrogates (utf16 s) = join_surrogates s).
  { clear s. induction n as [|n IH]; intros s Le; [lia|].
    destruct s as [|c s]; [done|]. simpl in Le.
    destruct (is_high c) eqn:Hc.
    - change (utf16 (c :: s)) with (utf16_of_char c ++ utf16 s).
      rewrite utf16_of_char_surrogate by by left.
      destruct s as [|c' s']; [done|]. simpl in Le.
      change ([c] ++ utf16 (c' :: s')) with (c :: utf16 (c' :: s')).
      destruct (is_low c') eqn:Lc.
      + change (utf16 (c' :: s')) with (utf16_of_char c' ++ utf16 s').
        rewrite utf16_of_char_surrogate by by right.
        change ([c'] ++ utf16 s') with (c' :: utf16 s').
        rewrite !join_surrogates_pair by done. f_equal. apply IH. lia.
      + rewrite (join_surrogates_cons_not_low c c') by done.
        destruct (utf16_head c' s') as (u & rest & E & Lu). rewrite E.
        rewrite join_surrogates_cons_not_low by congruence.
        rewrite <- E. f_equal. apply IH. simpl. lia.
    - rewrite (join_surrogates_cons_other c s) by done.
      change (utf16 (c :: s)) with (utf16_of_char c ++ utf16 s).
      destruct (utf16_of_char_cases c) as [[-> _]|(h & l & -> & Hh & Hl & _ & _ & Eq)].
      + change ([c] ++ utf16 s) with (c :: utf16 s).
        rewrite join_surrogates_cons_other by done. f_equal. apply IH. lia.
      + change ([h; l] ++ utf16 s) with (h :: l :: utf16 s).
        rewrite join_surrogates_pair by done. rewrite Eq. f_equal. apply IH. lia. }
  apply (Two (S (length s))). lia.
Qed.

Lemma pair_free_cons c c' s :
  pair_free (c :: c' :: s) = negb (is_high c && is_low c') && pair_free (c' :: s).
Proof. done. Qed.

(** A string without a high surrogate followed by a low one is read
    back as it is. *)
Lemma join_pair_free s : pair_free s → join_surrogates s = s.
Proof.
  induction s as [|c s IH]; [done|]. destruct s as [|c' s']; [done|].
  rewrite pair_free_cons. intros [Np Pf]%andb_True.
  apply negb_True, Is_true_false in Np.
  change (join_surrogates (c :: c' :: s'))
    with (if is_high c && is_low c'
          then (0x10000 + (c - 0xD800) * 0x400 + (c' - 0xDC00))%N
                 :: join_surrogates s'
          else c :: join_surrogates (c' :: s')).
  rewrite Np. f_equal. by apply IH.
Qed.

Lemma join_utf16_pair_free s : pair_free s → join_surrogates (utf16 s) = s.
Proof. intros Pf. by rewrite join_utf16, join_pair_free. Qed.

Lemma joined_not_surrogate u u' :
  is_high u = true → is_low u' = true →
  is_high (0x10000 + (u - 0xD800) * 0x400 + (u' - 0xDC00))%N = false
  ∧ is_low (0x10000 + (u - 0xD800) * 0x400 + (u' - 0xDC00))%N = false.
Proof.
  intros _ _. unfold is_high, is_low.
  split; apply andb_false_iff; right; apply N.ltb_ge; lia.
Qed.

(** What [json.load] reads has no high surrogate followed by a low one. *)
Lemma pair_free_join units : pair_free (join_surrogates units).
Proof.
  assert (Two : ∀ n us, length us < n →
            pair_free (join_surrogates us)
            ∧ ∀ u rest, us = u :: rest →
                ∃ c out, join_surrogates us = c :: out
                         ∧ (is_low u = false → is_low c = false)).
  { induction n as [|n IH]; intros us Le; [lia|].
    destruct us as [|u us]; [done|]. simpl in Le.
    destruct us as [|u' us'].
    { split; [done|]. intros ? ? [= <- <-]. by eexists _, _. }
    simpl in Le. destruct (is_high u && is_low u') eqn:E.
    - apply andb_true_iff in E as [Hu Lu'].
      rewrite join_surrogates_pair by done.
      destruct (joined_not_surrogate u u' Hu Lu') as [Nh Nl].
      destruct (IH us' ltac:(lia)) as [Pf _]. split.
      + destruct (join_surrogates us') as [|c out] eqn:J; [done|].
        rewrite pair_free_cons, Nh. exact Pf.
      + intros ? ? [= <- <-]. by eexists _, _.
    - change (join_surrogates (u :: u' :: us'))
        with (if is_high u && is_low u'
              then (0x10000 + (u - 0xD800) * 0x400 + (u' - 0xDC00))%N
                     :: join_surrogates us'
              else u :: join_surrogates (u' :: us')).
      rewrite E.
      destruct (IH (u' :: us') ltac:(simpl; lia)) as [Pf Hd].
      destruct (Hd u' us' eq_refl) as (c & out & J & Lo). split.
      + rewrite J in *. rewrite pair_free_cons.
        apply andb_True. split; [|done]. apply negb_True, Is_true_false.
        apply andb_false_iff in E as [E|E]; [by rewrite E|].
        rewrite (Lo E). apply andb_false_r.
      + intros ? ? [= <- <-]. by eexists _, _. }
  apply (Two (S (length units))). lia.
Qed.

Lemma lit_small s : Forall (λ c, (c < 256)%N) (lit s).
Proof.
  induction s as [|a s IH]; constructor; [|done]. apply N_ascii_bounded.
Qed.

Lemma pair_free_not_high s :
  Forall (λ c, is_high c = false) s → pair_free s.
Proof.
  induction 1 as [|c s Nh _ IH]; [done|]. destruct s as [|c' s']; [done|].
  rewrite pair_free_cons, Nh. done.
Qed.

(** A text of code points below 256, as the literals of the program
    and the texts of [hashlib] and the clock are, has no surrogate. *)
Lemma pair_free_lit s : pair_free (lit s).
Proof.
  apply pair_free_not_high. eapply Forall_impl; [apply lit_small|].
  intros c Lt. simpl in Lt. unfold is_high. apply andb_false_iff. left.
  apply N.leb_gt. lia.
Qed.

(** ** Dicts *)

Lemma dict_get_set_eq {V} k v (d : dict V) : dict_get k (dict_set k v d) = Some v.
Proof.
  induction d as [|[k' v'] d IH]; simpl.
  - by rewrite decide_True.
  - destruct (decide (k = k')) as [->|Ne]; simpl.
    + by rewrite decide_True.
    + by rewrite decide_False.
Qed.

Lemma dict_get_set_ne {V} k k' v (d : dict V) :
  k ≠ k' → dict_get k' (dict_set k v d) = dict_get k' d.
Proof.
  intros Ne. induction d as [|[k0 v0] d IH]; simpl.
  - by rewrite decide_False.
  - destruct (decide (k = k0)) as [->|Ne0]; simpl.
    + by rewrite !decide_False.
    + by rewrite IH.
Qed.

Lemma dict_get_del_eq {V} k (d : dict V) : dict_get k (dict_del k d) = None.
Proof.
  induction d as [|[k' v'] d IH]; simpl; [done|].
  destruct (decide (k = k')) as [->|Ne]; simpl; [done|]. by rewrite decide_False.
Qed.

Lemma dict_get_del_ne {V} k k' (d : dict V) :
  k ≠ k' → dict_get k' (dict_del k d) = dict_get k' d.
Proof.
  intros Ne. induction d as [|[k0 v0] d IH]; simpl; [done|].
  destruct (decide (k = k0)) as [->|Ne0]; simpl.
  - by rewrite decide_False.
  - by rewrite IH.
Qed.

Lemma dict_get_keys {V} k (d : dict V) : k ∈ dict_keys d ↔ is_Some (dict_get k d).
Proof.
  unfold dict_keys. induction d as [|[k' v'] d IH]; simpl.
  - split; [by intros ?%elem_of_nil|by intros [? ?]].
  - rewrite elem_of_cons. destruct (decide (k = k')) as [->|Ne].
    + split; [by eexists|by left].
    + rewrite <- IH. split; [by intros [?|?]|by right].
Qed.

Lemma dict_get_elem {V} k v (d : dict V) : dict_get k d = Some v → (k, v) ∈ d.
Proof.
  induction d as [|[k' v'] d IH]; simpl; [done|].
  destruct (decide (k = k')) as [->|Ne].
  - intros [= ->]. by left.
  - intros E. right. by apply IH.
Qed.

Lemma dict_elem_get {V} k v (d : dict V) : NoDup (dict_keys d) → (k, v) ∈ d → dict_get k d = Some v.
Proof.
  unfold dict_keys. induction d as [|[k' v'] d IH]; simpl.
  - by intros _ ?%elem_of_nil.
  - intros [Ni Nd]%NoDup_cons [[= -> ->]|In]%elem_of_cons.
    + by rewrite decide_True.
    + rewrite decide_False; [by apply IH|].
      intros ->. apply Ni. apply list_elem_of_fmap. by exists (k', v).
Qed.

Lemma dict_del_absent {V} k (d : dict V) : dict_get k d = None → dict_del k d = d.
Proof.
  induction d as [|[k' v'] d IH]; simpl; [done|].
  destruct (decide (k = k')) as [->|Ne]; [done|]. intros E. by rewrite IH.
Qed.

Lemma dict_keys_set {V} k v (d : dict V) :
  dict_keys (dict_set k v d)
  = if decide (k ∈ dict_keys d) then dict_keys d else dict_keys d ++ [k].
Proof.
  unfold dict_keys. induction d as [|[k' v'] d IH].
  - rewrite decide_False; [done|]. by intros ?%elem_of_nil.
  - cbn [dict_set]. rewrite fmap_cons. cbn [fst].
    destruct (decide (k = k')) as [->|Ne].
    + rewrite decide_True; [done|]. by left.
    + rewrite fmap_cons, IH. cbn [fst]. destruct (decide (k ∈ d.*1)) as [In|Ni].
      * rewrite decide_True; [done|]. by right.
      * rewrite decide_False; [done|]. by intros [?|?]%elem_of_cons.
Qed.

Lemma dict_keys_del {V} k (d : dict V) :
  dict_keys (dict_del k d) = filter (λ k', k' ≠ k) (dict_keys d).
Proof.
  unfold dict_keys. induction d as [|[k' v'] d IH]; [done|].
  cbn [dict_del]. rewrite fmap_cons. cbn [fst].
  destruct (decide (k = k')) as [->|Ne].
  - rewrite filter_cons_False by (by intros ?). exact IH.
  - rewrite filter_cons_True by done. by rewrite fmap_cons, IH.
Qed.

Lemma NoDup_dict_set {V} k v (d : dict V) : NoDup (dict_keys d) → NoDup (dict_keys (dict_set k v d)).
Proof.
  intros Nd. rewrite dict_keys_set. destruct (decide (k ∈ dict_keys d)); [done|].
  apply NoDup_app. split; [done|]. split; [|apply NoDup_singleton].
  intros x In ->%list_elem_of_singleton. done.
Qed.

Lemma NoDup_dict_del {V} k (d : dict V) : NoDup (dict_keys d) → NoDup (dict_keys (dict_del k d)).
Proof. intros Nd. rewrite dict_keys_del. by apply NoDup_filter. Qed.

Lemma Forall_dict_set {V} (P : str * V → Prop) k v (d : dict V) :
  P (k, v) → Forall P d → Forall P (dict_set k v d).
Proof.
  intros Pk. induction 1 as [|[k' v'] d Px Fa IH]; simpl.
  - by repeat constructor.
  - destruct (decide (k = k')); constructor; done.
Qed.

Lemma Forall_dict_del {V} (P : str * V → Prop) k (d : dict V) :
  Forall P d → Forall P (dict_del k d).
Proof.
  induction 1 as [|[k' v'] d Px Fa IH]; simpl; [done|].
  destruct (decide (k = k')); [done|]. by constructor.
Qed.

Lemma length_dict_set {V} k v (d : dict V) :
  length (dict_set k v d)
  = match dict_get k d with Some _ => length d | None => S (length d) end.
Proof.
  induction d as [|[k' v'] d IH]; simpl; [done|].
  destruct (decide (k = k')); simpl; [done|]. rewrite IH.
  by destruct (dict_get k d).
Qed.

Lemma length_dict_del {V} k (d : dict V) :
  NoDup (dict_keys d) →
  length (dict_del k d)
  = match dict_get k d with Some _ => pred (length d) | None => length d end.
Proof.
  unfold dict_keys. induction d as [|[k' v'] d IH]; simpl; [done|].
  intros [Ni Nd]%NoDup_cons. destruct (decide (k = k')) as [->|Ne]; simpl.
  - rewrite dict_del_absent; [done|].
    destruct (dict_get k' d) eqn:E; [|done]. destruct Ni.
    apply dict_get_keys. by rewrite E.
  - rewrite IH by done. destruct (dict_get k d) eqn:E; [|done].
    destruct d; [done|]. done.
Qed.

Lemma dict_of_items_acc {V} (items acc : dict V) :
  NoDup (dict_keys (acc ++ items)) →
  foldl (λ d kv, dict_set kv.1 kv.2 d) acc items = acc ++ items.
Proof.
  revert acc. induction items as [|[k v] items IH]; intros acc Nd; simpl.
  - by rewrite app_nil_r.
  - assert (Ap : dict_set k v acc = acc ++ [(k, v)]).
    { unfold dict_keys in Nd. rewrite fmap_app in Nd.
      apply NoDup_app in Nd as (_ & Di & _).
      assert (Ni : k ∉ acc.*1).
      { intros In. apply (Di k In). by left. }
      clear -Ni. induction acc as [|[k' v'] acc IH]; simpl; [done|].
      rewrite decide_False; [|intros ->; apply Ni; by left].
      rewrite IH; [done|]. intros In. apply Ni. by right. }
    rewrite Ap, IH; rewrite <- app_assoc; done.
Qed.

Lemma dict_of_items_nodup {V} (items : dict V) :
  NoDup (dict_keys items) → dict_of_items items = items.
Proof. intros Nd. unfold dict_of_items. by rewrite dict_of_items_acc. Qed.

Lemma dict_of_items_inv {V} (P : str * V → Prop) (items : dict V) :
  Forall P items →
  NoDup (dict_keys (dict_of_items items)) ∧ Forall P (dict_of_items items).
Proof.
  intros Fa. unfold dict_of_items.
  assert (Ge : ∀ acc, NoDup (dict_keys acc) → Forall P acc →
            NoDup (dict_keys (foldl (λ d kv, dict_set kv.1 kv.2 d) acc items))
            ∧ Forall P (foldl (λ d kv, dict_set kv.1 kv.2 d) acc items)).
  { induction Fa as [|[k v] items Px Fa IH]; intros acc Nd Pa; simpl; [done|].
    apply IH; [by apply NoDup_dict_set|by apply Forall_dict_set]. }
  apply Ge; [apply NoDup_nil_2|done].
Qed.

(** ** What is written and what is read back *)

Lemma clean_dict items :
  clean (PDict items)
  ↔ NoDup (dict_keys items) ∧ Forall (λ kv, pair_free kv.1 ∧ clean kv.2) items.
Proof.
  simpl. rewrite andb_True, bool_decide_spec, forallb_True.
  unfold dict_keys. split; intros [Nd Fa]; (split; [done|]);
    (eapply Forall_impl; [exact Fa|]); intros kv; simpl; by rewrite andb_True.
Qed.

(** Every value that [json.load] returns is clean: its strings have no
    surrogate pair left and its dicts have each key once. *)
Lemma clean_json_load j : clean (json_load j).
Proof.
  induction j as [| | | |s|items IH|items IH] using pyobj_nested_ind; try done.
  - apply pair_free_join.
  - simpl. apply forallb_True, Forall_fmap.
    eapply Forall_impl; [exact IH|]. done.
  - change (json_load (PDict items))
      with (PDict (dict_of_items
                     (map (λ kv, (join_surrogates kv.1, json_load kv.2)) items))).
    apply clean_dict, dict_of_items_inv, Forall_fmap.
    eapply Forall_impl; [exact IH|]. intros [k v] Cl. simpl in *.
    split; [apply pair_free_join|done].
Qed.

(** A clean value is read back from its dump as it is. *)
Lemma json_load_dump v : clean v → json_load (json_dump v) = v.
Proof.
  induction v as [| | | |s|items IH|items IH] using pyobj_nested_ind; try done.
  - intros Pf. simpl. by rewrite join_utf16_pair_free.
  - intros Cl. simpl in *. apply forallb_True in Cl. f_equal.
    rewrite <- list_fmap_compose. rewrite <- (list_fmap_id items) at 2.
    apply Forall_fmap_ext. rewrite Forall_forall in IH, Cl |- *.
    intros x In. simpl. apply IH; [done|]. by apply Cl.
  - intros [Nd Fa]%clean_dict.
    change (json_load (json_dump (PDict items)))
      with (PDict (dict_of_items
                     (map (λ kv, (join_surrogates kv.1, json_load kv.2))
                        (map (λ kv, (utf16 kv.1, json_dump kv.2)) items)))).
    f_equal.
    assert (Id : map (λ kv, (join_surrogates kv.1, json_load kv.2))
                   (map (λ kv, (utf16 kv.1, json_dump kv.2)) items) = items).
    { rewrite <- (list_fmap_id items) at 2.
      change (map ?f (map ?g ?l)) with (f <$> (g <$> l)).
      rewrite <- list_fmap_compose.
      apply Forall_fmap_ext. rewrite Forall_forall in IH, Fa |- *.
      intros [k x] In. simpl. destruct (Fa _ In) as [Pf Cl]. simpl in *.
      rewrite join_utf16_pair_free by done. f_equal. by apply (IH _ In). }
    rewrite Id. by apply dict_of_items_nodup.
Qed.

Lemma clean_dict_set k v d :
  pair_free k → clean v → clean (PDict d) → clean (PDict (dict_set k v d)).
Proof.
  intros Pk Cv [Nd Fa]%clean_dict. apply clean_dict.
  split; [by apply NoDup_dict_set|by apply Forall_dict_set].
Qed.

Lemma clean_dict_del k d : clean (PDict d) → clean (PDict (dict_del k d)).
Proof.
  intros [Nd Fa]%clean_dict. apply clean_dict.
  split; [by apply NoDup_dict_del|by apply Forall_dict_del].
Qed.

(** ** Encoding a text *)

Lemma utf8_of_char_scalar c :
  if scalar c then is_Some (utf8_of_char c) else utf8_of_char c = None.
Proof.
  unfold scalar, utf8_of_char, is_surrogate.
  destruct (c <? 0x80)%N eqn:E1; [|destruct (c <? 0x800)%N eqn:E2];
    destruct (c <? 0x110000)%N eqn:E3; destruct (0xD800 <=? c)%N eqn:E4;
    destruct (c <? 0xE000)%N eqn:E5; destruct (c <? 0x10000)%N eqn:E6;
    simpl; try done;
    rewrite ?N.ltb_lt, ?N.ltb_ge, ?N.leb_le, ?N.leb_gt in *; lia.
Qed.

(** [encode_utf8] has a result exactly on the texts without surrogate. *)
Lemma encode_utf8_Some text : encodable text → is_Some (encode_utf8 text).
Proof.
  unfold encodable. induction text as [|c text IH]; simpl; [done|].
  intros [Sc En]%andb_True. pose proof (utf8_of_char_scalar c) as Hc.
  destruct (scalar c); [|done]. destruct Hc as [bytes ->].
  destruct (IH En) as [data ->]. done.
Qed.

Lemma encode_utf8_None text : ¬ encodable text → encode_utf8 text = None.
Proof.
  unfold encodable. induction text as [|c text IH]; simpl; [by intros []|].
  intros Ne. pose proof (utf8_of_char_scalar c) as Hc.
  destruct (scalar c); [|by rewrite Hc].
  rewrite IH; [by destruct (utf8_of_char c)|done].
Qed.

Lemma encode_utf8_encodable text data :
  encode_utf8 text = Some data → encodable text.
Proof.
  intros E. destruct (encodable text) eqn:En; [done|].
  rewrite encode_utf8_None in E; [done|]. rewrite En. simpl. tauto.
Qed.

(** ** Running the primitives *)

Lemma bind_return {A B} (m : M A) (k : A → M B) w a w' :
  m w = (Return a, w') → bind m k w = k a w'.
Proof. intros E. unfold bind. by rewrite E. Qed.

Lemma bind_raise {A B} (m : M A) (k : A → M B) w e w' :
  m w = (Raise e, w') → bind m k w = (Raise e, w').
Proof. intros E. unfold bind. by rewrite E. Qed.

Lemma bind_lift_return {A B} (a : A) (k : A → M B) w :
  bind (lift (Return a)) k w = k a w.
Proof. done. Qed.

Lemma bind_lift_raise {A B} e (k : A → M B) w :
  bind (lift (Raise e)) k w = (Raise e, w).
Proof. done. Qed.

Lemma trace_log e w : trace (log e w) = trace w ++ [e].
Proof. done. Qed.

Lemma added_refl w : added w w [].
Proof. unfold added. by rewrite app_nil_r. Qed.

Lemma added_trans w1 w2 w3 evs1 evs2 :
  added w1 w2 evs1 → added w2 w3 evs2 → added w1 w3 (evs1 ++ evs2).
Proof. unfold added. intros E1 E2. by rewrite E2, E1, app_assoc. Qed.

Lemma added_log e w : added w (log e w) [e].
Proof. done. Qed.

Lemma no_digest_filter (evs : list event) :
  Forall (λ e, digest_event e = false) evs →
  filter (λ e, digest_event e = true) evs = [].
Proof.
  induction 1 as [|e evs E _ IH]; [done|].
  rewrite filter_cons_False; [done|]. by rewrite E.
Qed.

Lemma stored_unique w v1 v2 : stored w v1 → stored w v2 → v1 = v2.
Proof.
  unfold stored. destruct (vault_file w) as [[| |j]|]; try done; congruence.
Qed.

(** What the store holds was read by [json.load], or is the empty
    dict: it is clean. *)
Lemma stored_clean w v : stored w v → clean v.
Proof.
  unfold stored. destruct (vault_file w) as [[| |j]|]; try done.
  - intros ->. apply clean_json_load.
  - by intros ->.
Qed.

Lemma after_load_file w : vault_file (after_load w) = vault_file w.
Proof. unfold after_load. by destruct (vault_file w) eqn:E. Qed.

Lemma after_load_clock w : clock (after_load w) = clock w.
Proof. unfold after_load. by destruct (vault_file w) eqn:E. Qed.

Lemma after_load_added w :
  ∃ evs, added w (after_load w) evs
    ∧ Forall (λ e, write_event e = false ∧ digest_event e = false) evs.
Proof.
  unfold added, after_load. destruct (vault_file w); simpl.
  - exists [PathExists true; FileRead]. rewrite <- app_assoc. split; [done|].
    repeat constructor.
  - exists [PathExists false]. split; [done|]. repeat constructor.
Qed.

Lemma stored_after_load w v : stored w v → stored (after_load w) v.
Proof. unfold stored. by rewrite after_load_file. Qed.

Lemma load_vault_run w v : stored w v → load_vault w = (Return v, after_load w).
Proof.
  unfold stored, load_vault, after_load, bind, path_exists, read_json.
  destruct (vault_file w) as [[| |j]|] eqn:E; simpl; try done.
  - intros ->. by rewrite E.
  - by intros ->.
Qed.

Lemma load_vault_absent w :
  vault_file w = None →
  load_vault w = (Return (PDict []), log (PathExists false) w).
Proof.
  intros E. rewrite (load_vault_run w (PDict []));
    unfold stored, after_load; by rewrite E.
Qed.

Lemma load_vault_malformed w :
  vault_file w = Some Malformed →
  load_vault w = (Raise JSONDecodeError, after_load w).
Proof.
  intros E. unfold load_vault, after_load, bind, path_exists, read_json.
  rewrite E. simpl. by rewrite E.
Qed.

Lemma load_vault_undecodable w :
  vault_file w = Some Undecodable →
  load_vault w = (Raise UnicodeDecodeError, after_load w).
Proof.
  intros E. unfold load_vault, after_load, bind, path_exists, read_json.
  rewrite E. simpl. by rewrite E.
Qed.

(** The store loads, or [load_vault] raises on its file. *)
Lemma load_vault_cases w :
  (∃ v, stored w v ∧ load_vault w = (Return v, after_load w))
  ∨ (∃ e, load_vault w = (Raise e, after_load w)).
Proof.
  destruct (vault_file w) as [[| |j]|] eqn:E.
  - right. eexists. by apply load_vault_undecodable.
  - right. eexists. by apply load_vault_malformed.
  - left. exists (json_load j).
    assert (St : stored w (json_load j)) by (unfold stored; by rewrite E).
    split; [done|]. by apply load_vault_run.
  - left. exists (PDict []).
    assert (St : stored w (PDict [])) by (unfold stored; by rewrite E).
    split; [done|]. by apply load_vault_run.
Qed.

Lemma load_vault_world w : snd (load_vault w) = after_load w.
Proof. by destruct (load_vault_cases w) as [(v & _ & ->)|[e ->]]. Qed.

(** [algorithm not in ALGORITHMS], for a string. *)
Lemma algorithm_in (algorithm : str) :
  existsb (is_str (PStr algorithm)) ALGORITHMS
  = bool_decide (algorithm ∈ ALGORITHMS).
Proof.
  apply eq_bool_prop_intro.
  rewrite existb_True, bool_decide_spec, Exists_exists. split.
  - intros (a & In & Eq). simpl in Eq. apply bool_decide_unpack in Eq. by subst.
  - intros In. exists algorithm. split; [done|]. simpl. by apply bool_decide_pack.
Qed.

Lemma compute_hash_run text algorithm data w :
  algorithm ∈ ALGORITHMS → encode_utf8 text = Some data →
  compute_hash text (PStr algorithm) w
  = (Return (lit (hexdigest algorithm data)), log (Digest algorithm data) w).
Proof.
  intros Al En. unfold compute_hash.
  by rewrite algorithm_in, bool_decide_eq_true_2, En.
Qed.

Lemma compute_hash_raise text algorithm w :
  existsb (is_str algorithm) ALGORITHMS = false →
  compute_hash text algorithm w = (Raise (ValueError unsupported_algorithm), w).
Proof. intros Al. unfold compute_hash. by rewrite Al. Qed.

Lemma compute_hash_unsupported text algorithm w :
  algorithm ∉ ALGORITHMS →
  compute_hash text (PStr algorithm) w
  = (Raise (ValueError unsupported_algorithm), w).
Proof.
  intros Al. apply compute_hash_raise.
  by rewrite algorithm_in, bool_decide_eq_false_2.
Qed.

Lemma compute_hash_unencodable text algorithm w :
  algorithm ∈ ALGORITHMS → ¬ encodable text →
  compute_hash text (PStr algorithm) w = (Raise UnicodeEncodeError, w).
Proof.
  intros Al En. unfold compute_hash.
  by rewrite algorithm_in, bool_decide_eq_true_2, encode_utf8_None.
Qed.

(** [compute_hash] returns or raises without a trace but that of the
    digest. *)
Lemma compute_hash_world text algorithm w :
  snd (compute_hash text algorithm w) = w
  ∨ ∃ a data, snd (compute_hash text algorithm w) = log (Digest a data) w.
Proof.
  unfold compute_hash. destruct (existsb (is_str algorithm) ALGORITHMS); simpl;
    [|by left].
  destruct algorithm; try by left.
  destruct (encode_utf8 text); [right; by eexists _, _|by left].
Qed.

(** ** Running [hasher.py] *)

Lemma save_vault_run vault w :
  save_vault vault w
  = (Return tt, MkWorld (Some (Document (json_dump vault))) (clock w)
                  (trace w ++ [FileWrite (json_dump vault)])).
Proof. done. Qed.

Lemma stored_after_write vault c t :
  clean vault →
  stored (MkWorld (Some (Document (json_dump vault))) c t) vault.
Proof. intros Cl. unfold stored. simpl. by rewrite json_load_dump. Qed.

Lemma pair_free_algorithm algorithm :
  algorithm ∈ ALGORITHMS → pair_free algorithm.
Proof.
  unfold ALGORITHMS. intros In.
  repeat (apply elem_of_cons in In as [->|In]; [apply pair_free_lit|]).
  by apply elem_of_nil in In.
Qed.

Lemma clean_snapshot label algorithm (hash timestamp : string) n :
  pair_free label → algorithm ∈ ALGORITHMS →
  clean (snapshot label algorithm (lit hash) n (lit timestamp)).
Proof.
  intros Pl Al. apply clean_dict. split.
  - apply (bool_decide_unpack _). by vm_compute.
  - repeat constructor; simpl; try done;
      try apply pair_free_lit; by apply pair_free_algorithm.
Qed.

Lemma save_hash_run label text algorithm data w d :
  stored w (PDict d) → algorithm ∈ ALGORITHMS → encode_utf8 text = Some data →
  save_hash label text algorithm w
  = (Return (saved_entry label text algorithm data w),
     after_save label text algorithm data d w).
Proof.
  intros St Al En. unfold save_hash.
  rewrite (bind_return _ _ _ _ _ (load_vault_run w _ St)).
  rewrite (bind_return _ _ _ _ _ (compute_hash_run text algorithm data _ Al En)).
  unfold bind, now_isoformat, save_vault, write_json, ret, lift, after_save,
    saved_entry.
  simpl. rewrite after_load_clock, <- !app_assoc. done.
Qed.

Lemma stored_after_save label text algorithm data w d :
  stored w (PDict d) → pair_free label → algorithm ∈ ALGORITHMS →
  stored (after_save label text algorithm data d w)
         (PDict (dict_set label (saved_entry label text algorithm data w) d)).
Proof.
  intros St Pl Al. apply stored_after_write, clean_dict_set; [done| |].
  - by apply clean_snapshot.
  - by apply (stored_clean w).
Qed.

(** With an algorithm outside [ALGORITHMS], [save_hash] raises once
    the store is loaded. *)
Lemma save_hash_unsupported label text algorithm w :
  algorithm ∉ ALGORITHMS →
  ∃ e, save_hash label text algorithm w = (Raise e, after_load w)
       ∧ ∀ v, stored w v → e = ValueError unsupported_algorithm.
Proof.
  intros Al. unfold save_hash.
  destruct (load_vault_cases w) as [(v & St & Lo)|[e Lo]].
  - rewrite (bind_return _ _ _ _ _ Lo).
    rewrite (bind_raise _ _ _ _ _ (compute_hash_unsupported text algorithm _ Al)).
    by eexists.
  - rewrite (bind_raise _ _ _ _ _ Lo). eexists. split; [done|].
    intros v St. rewrite (load_vault_run w v St) in Lo. congruence.
Qed.

Lemma save_hash_unencodable label text algorithm w v :
  stored w v → algorithm ∈ ALGORITHMS → ¬ encodable text →
  save_hash label text algorithm w = (Raise UnicodeEncodeError, after_load w).
Proof.
  intros St Al En. unfold save_hash.
  rewrite (bind_return _ _ _ _ _ (load_vault_run w _ St)).
  by rewrite (bind_raise _ _ _ _ _ (compute_hash_unencodable text algorithm _ Al En)).
Qed.

Lemma verify_text_absent label text w d :
  stored w (PDict d) → dict_get label d = None →
  verify_text label text w
  = (Return [(lit "status", PStr (lit "NOT_FOUND"));
             (lit "message",
              PStr (lit "No snapshot found for label '" ++ label ++ lit "'"))],
     after_load w).
Proof.
  intros St No. unfold verify_text.
  rewrite (bind_return _ _ _ _ _ (load_vault_run w _ St)).
  unfold bind, lift, contains. by rewrite No.
Qed.

(** [verify_text] on a label of the store, whose record has the four
    keys that are read and a supported algorithm. *)
Lemma verify_text_present label text data w d fields algorithm
    original_hash original_length saved_at :
  stored w (PDict d) → dict_get label d = Some (PDict fields) →
  dict_get (lit "algorithm") fields = Some (PStr algorithm) →
  dict_get (lit "hash") fields = Some original_hash →
  dict_get (lit "length") fields = Some original_length →
  dict_get (lit "timestamp") fields = Some saved_at →
  algorithm ∈ ALGORITHMS → encode_utf8 text = Some data →
  let current := lit (hexdigest algorithm data) in
  let is_intact := is_str original_hash current in
  verify_text label text w
  = (Return [(lit "status", PStr (lit (if is_intact then "INTACT" else "MODIFIED")));
             (lit "label", PStr label);
             (lit "algorithm", PStr algorithm);
             (lit "original_hash", original_hash);
             (lit "current_hash", PStr current);
             (lit "original_length", original_length);
             (lit "current_length", PInt (Z.of_nat (length text)));
             (lit "saved_at", saved_at);
             (lit "is_intact", PBool is_intact)],
     log (Digest algorithm data) (after_load w)).
Proof.
  intros St Lk Fa Fh Fl Ft Al En. unfold verify_text.
  rewrite (bind_return _ _ _ _ _ (load_vault_run w _ St)).
  cbv [bind lift contains getitem negb]. rewrite Lk. cbv beta iota.
  rewrite Fa, (compute_hash_run text algorithm data _ Al En), Fh, Fl, Ft. done.
Qed.

(** The same on the record that [save_hash] wrote. *)
Lemma verify_text_snapshot label text data w d algorithm hash n timestamp :
  stored w (PDict d) →
  dict_get label d = Some (snapshot label algorithm hash n timestamp) →
  algorithm ∈ ALGORITHMS → encode_utf8 text = Some data →
  let current := lit (hexdigest algorithm data) in
  let is_intact := bool_decide (hash = current) in
  verify_text label text w
  = (Return [(lit "status", PStr (lit (if is_intact then "INTACT" else "MODIFIED")));
             (lit "label", PStr label);
             (lit "algorithm", PStr algorithm);
             (lit "original_hash", PStr hash);
             (lit "current_hash", PStr current);
             (lit "original_length", PInt (Z.of_nat n));
             (lit "current_length", PInt (Z.of_nat (length text)));
             (lit "saved_at", PStr timestamp);
             (lit "is_intact", PBool is_intact)],
     log (Digest algorithm data) (after_load w)).
Proof.
  intros St Lk Al En.
  by apply (verify_text_present label text data w d _ algorithm
              (PStr hash) (PInt (Z.of_nat n)) (PStr timestamp) St Lk).
Qed.

(** A record whose algorithm is no supported name stops [verify_text]
    before any digest. *)
Lemma verify_text_unsupported label text w d fields algorithm :
  stored w (PDict d) → dict_get label d = Some (PDict fields) →
  dict_get (lit "algorithm") fields = Some algorithm →
  existsb (is_str algorithm) ALGORITHMS = false →
  verify_text label text w
  = (Raise (ValueError unsupported_algorithm), after_load w).
Proof.
  intros St Lk Fa Al. unfold verify_text.
  rewrite (bind_return _ _ _ _ _ (load_vault_run w _ St)).
  cbv [bind lift contains getitem negb]. rewrite Lk. cbv beta iota.
  by rewrite Fa, (compute_hash_raise text algorithm _ Al).
Qed.

Lemma list_snapshots_run w d :
  stored w (PDict d) →
  list_snapshots w = (Return (dict_values d), after_load w).
Proof.
  intros St. unfold list_snapshots.
  by rewrite (bind_return _ _ _ _ _ (load_vault_run w _ St)).
Qed.

Lemma delete_snapshot_present label w d :
  stored w (PDict d) → is_Some (dict_get label d) →
  delete_snapshot label w
  = (Return true,
     MkWorld (Some (Document (json_dump (PDict (dict_del label d))))) (clock w)
       (trace (after_load w) ++ [FileWrite (json_dump (PDict (dict_del label d)))])).
Proof.
  intros St [e In]. unfold delete_snapshot.
  rewrite (bind_return _ _ _ _ _ (load_vault_run w _ St)).
  cbv [bind lift contains delitem]. rewrite In. cbv beta iota.
  unfold save_vault, write_json, ret. simpl. by rewrite after_load_clock.
Qed.

Lemma delete_snapshot_absent label w d :
  stored w (PDict d) → dict_get label d = None →
  delete_snapshot label w = (Return false, after_load w).
Proof.
  intros St No. unfold delete_snapshot.
  rewrite (bind_return _ _ _ _ _ (load_vault_run w _ St)).
  cbv [bind lift contains]. by rewrite No.
Qed.

Lemma stored_after_delete label d c t :
  clean (PDict d) →
  stored (MkWorld (Some (Document (json_dump (PDict (dict_del label d))))) c t)
    (PDict (dict_del label d)).
Proof. intros Cl. by apply stored_after_write, clean_dict_del. Qed.


(** ** The digest engine *)

(** C4, as the code has it: [compute_hash] raises the
    unsupported-algorithm [ValueError] exactly when the algorithm is
    outside [ALGORITHMS]; for an algorithm of the list it returns the
    hex digest of the UTF-8 encoding of the text when the text has
    one, and raises [UnicodeEncodeError] when it has none, that is
    when the text holds a surrogate; the empty text has the digest of
    the empty byte string. *)
Theorem compute_hash_unsupported_iff (text algorithm : str) (w : World) :
  (fst (compute_hash text (PStr algorithm) w)
   = Raise (ValueError unsupported_algorithm) ↔ algorithm ∉ ALGORITHMS)
  ∧ ((∃ e w', compute_hash text (PStr algorithm) w = (Raise e, w'))
     ↔ algorithm ∉ ALGORITHMS ∨ ¬ encodable text)
  ∧ (algorithm ∈ ALGORITHMS → encodable text →
     ∃ data, encode_utf8 text = Some data
       ∧ compute_hash text (PStr algorithm) w
         = (Return (lit (hexdigest algorithm data)),
            log (Digest algorithm data) w))
  ∧ (algorithm ∈ ALGORITHMS → ¬ encodable text →
     compute_hash text (PStr algorithm) w = (Raise UnicodeEncodeError, w))
  ∧ (algorithm ∈ ALGORITHMS →
     fst (compute_hash [] (PStr algorithm) w)
     = Return (lit (hexdigest algorithm []))).
Proof.
  destruct (decide (algorithm ∈ ALGORITHMS)) as [Al|Al].
  - destruct (decide (encodable text)) as [En|Ne].
    + destruct (encode_utf8_Some text En) as [data Ed].
      rewrite (compute_hash_run text algorithm data w Al Ed).
      split; [done|]. split; [split|].
      * by intros (e & w' & R).
      * intros [?|Ne]; [done|]. by destruct Ne.
      * split; [intros _ _; by exists data|].
        split; [by intros _ []|]. intros _. by rewrite (compute_hash_run [] algorithm []).
    + rewrite (compute_hash_unencodable text algorithm w Al Ne).
      split; [done|]. split; [split; [intros _; by right|intros _; by eexists _, _]|].
      split; [by intros _ ?|]. split; [done|].
      intros _. by rewrite (compute_hash_run [] algorithm []).
  - rewrite (compute_hash_unsupported text algorithm w Al).
    split; [done|]. split; [split; [intros _; by left|intros _; by eexists _, _]|]. done.
Qed.

(** A comprehension whose body returns [g k] at every key returns the
    dict filled key by key. *)
Lemma dict_comprehension_run {V} (f : str → M V) (g : str → V) keys :
  (∀ k w, k ∈ keys → ∃ w', f k w = (Return (g k), w')) →
  ∀ acc w, ∃ w',
    dict_comprehension f keys acc w
    = (Return (foldl (λ d k, dict_set k (g k) d) acc keys), w').
Proof.
  induction keys as [|k keys IH]; intros Hf acc w; simpl.
  - by eexists.
  - destruct (Hf k w) as [w1 R]; [left|].
    rewrite (bind_return _ _ _ _ _ R).
    apply IH. intros k' w0 In. apply Hf. by right.
Qed.

(** C8, as the code has it: on a text without surrogate
    [compute_all_hashes] returns a dict whose keys are exactly
    [ALGORITHMS], and whose value at each algorithm is what
    [compute_hash] returns for the text and that algorithm. *)
Theorem compute_all_hashes_covers (text : str) (w : World) :
  encodable text →
  ∃ d w',
    compute_all_hashes text w = (Return d, w')
    ∧ dict_keys d = ALGORITHMS
    ∧ (∀ a, a ∈ dict_keys d ↔ a ∈ ALGORITHMS)
    ∧ ∀ a, a ∈ ALGORITHMS →
        ∃ h, dict_get a d = Some h
             ∧ ∀ w0, fst (compute_hash text (PStr a) w0) = Return h.
Proof.
  intros En. destruct (encode_utf8_Some text En) as [data Ed].
  destruct (dict_comprehension_run (λ algo, compute_hash text (PStr algo))
              (λ a, lit (hexdigest a data)) ALGORITHMS)
    with (acc := @nil (str * str)) (w := w) as [w' R].
  { intros a w0 In. eexists. by apply compute_hash_run. }
  exists (foldl (λ d k, dict_set k (lit (hexdigest k data)) d) [] ALGORITHMS), w'.
  split; [exact R|]. split; [done|]. split; [done|].
  intros a In. exists (lit (hexdigest a data)). split.
  - unfold ALGORITHMS in In.
    repeat (apply elem_of_cons in In as [->|In]; [done|]).
    by apply elem_of_nil in In.
  - intros w0. by rewrite (compute_hash_run text a data).
Qed.

(** ** The snapshot store *)

(** C6, as the code has it: [load_vault] returns the empty dict when
    the file does not exist; after [save_vault] has written a value
    none of whose strings holds a high surrogate followed by a low one,
    [load_vault] returns that value; after [save_vault] of any value it
    returns what [json.load] reads from the dump, in which every such
    pair of a string or of a key is joined into one code point. *)
Theorem load_after_persist :
  (∀ w, vault_file w = None → fst (load_vault w) = Return (PDict []))
  ∧ (∀ m w, clean m →
       ∃ w1 w2, save_vault m w = (Return tt, w1)
                ∧ load_vault w1 = (Return m, w2))
  ∧ (∀ m w, ∃ w1 w2,
       save_vault m w = (Return tt, w1)
       ∧ load_vault w1 = (Return (json_load (json_dump m)), w2)
       ∧ clean (json_load (json_dump m)))
  ∧ (∀ s, json_load (json_dump (PStr s)) = PStr (join_surrogates s))
  ∧ (∀ k v, json_load (json_dump (PDict [(k, v)]))
            = PDict [(join_surrogates k, json_load (json_dump v))]).
Proof.
  split; [|split; [|split; [|split]]].
  - intros w E. by rewrite load_vault_absent.
  - intros m w Cl. eexists _, _. split; [apply save_vault_run|].
    by apply load_vault_run, stored_after_write.
  - intros m w. eexists _, _. split; [apply save_vault_run|].
    split; [by apply load_vault_run|apply clean_json_load].
  - intros s. simpl. by rewrite join_utf16.
  - intros k v. simpl. by rewrite join_utf16.
Qed.


(** ** Saving, verifying and comparing *)

(** C7, as the code has it: [compare_texts] leaves the file as it was
    and makes no call on it, whatever the texts and the algorithm;
    under an algorithm of [ALGORITHMS] and on two texts without
    surrogate its [identical] flag is the equality of the two hashes it
    returns, and it is [True] when the two texts are the same. *)
Theorem compare_texts_stateless (text1 text2 algorithm : str) (w : World) :
  (∃ o w' evs, compare_texts text1 text2 algorithm w = (o, w')
               ∧ vault_file w' = vault_file w
               ∧ added w w' evs
               ∧ Forall (λ e, store_event e = false) evs)
  ∧ (algorithm ∈ ALGORITHMS → encodable text1 → encodable text2 →
     ∃ r h1 h2,
       fst (compare_texts text1 text2 algorithm w) = Return r
       ∧ fst (compute_hash text1 (PStr algorithm) w) = Return h1
       ∧ fst (compute_hash text2 (PStr algorithm) w) = Return h2
       ∧ dict_get (lit "hash_1") r = Some (PStr h1)
       ∧ dict_get (lit "hash_2") r = Some (PStr h2)
       ∧ dict_get (lit "identical") r = Some (PBool (bool_decide (h1 = h2)))
       ∧ (text1 = text2 → dict_get (lit "identical") r = Some (PBool true))).
Proof.
  split.
  - unfold compare_texts, bind.
    destruct (compute_hash_world text1 (PStr algorithm) w) as [E1|(a1 & d1 & E1)];
      destruct (compute_hash text1 (PStr algorithm) w) as [[h1|e1] w1];
      simpl in E1; subst w1.
    + destruct (compute_hash_world text2 (PStr algorithm) w) as [E2|(a2 & d2 & E2)];
        destruct (compute_hash text2 (PStr algorithm) w) as [[h2|e2] w2];
        simpl in E2; subst w2.
      * eexists _, _, []. split; [done|]. split; [done|].
        split; [apply added_refl|constructor].
      * eexists _, _, []. split; [done|]. split; [done|].
        split; [apply added_refl|constructor].
      * eexists _, _, [_]. split; [done|]. split; [done|].
        split; [apply added_log|by repeat constructor].
      * eexists _, _, [_]. split; [done|]. split; [done|].
        split; [apply added_log|by repeat constructor].
    + eexists _, _, []. split; [done|]. split; [done|].
      split; [apply added_refl|constructor].
    + destruct (compute_hash_world text2 (PStr algorithm) (log (Digest a1 d1) w))
        as [E2|(a2 & d2 & E2)];
        destruct (compute_hash text2 (PStr algorithm) (log (Digest a1 d1) w))
          as [[h2|e2] w2]; simpl in E2; subst w2.
      * eexists _, _, [_]. split; [done|]. split; [done|].
        split; [apply added_log|by repeat constructor].
      * eexists _, _, [_]. split; [done|]. split; [done|].
        split; [apply added_log|by repeat constructor].
      * eexists _, _, [_; _]. split; [done|]. split; [done|].
        split; [unfold added; simpl; by rewrite <- app_assoc|by repeat constructor].
      * eexists _, _, [_; _]. split; [done|]. split; [done|].
        split; [unfold added; simpl; by rewrite <- app_assoc|by repeat constructor].
    + eexists _, _, [_]. split; [done|]. split; [done|].
      split; [apply added_log|by repeat constructor].
  - intros Al En1 En2.
    destruct (encode_utf8_Some text1 En1) as [data1 Ed1].
    destruct (encode_utf8_Some text2 En2) as [data2 Ed2].
    unfold compare_texts.
    rewrite (bind_return _ _ _ _ _ (compute_hash_run text1 algorithm data1 _ Al Ed1)).
    rewrite (bind_return _ _ _ _ _ (compute_hash_run text2 algorithm data2 _ Al Ed2)).
    rewrite (compute_hash_run text1 algorithm data1 _ Al Ed1).
    rewrite (compute_hash_run text2 algorithm data2 _ Al Ed2).
    eexists _, _, _. repeat (split; [done|]).
    intros ->. assert (data1 = data2) as -> by congruence.
    simpl. by rewrite bool_decide_eq_true_2.
Qed.

(** C9: [save_hash] under an algorithm outside [ALGORITHMS] raises, and
    the file is then what it was before the call: nothing was written.
    With a store that loads, the exception is the unsupported-algorithm
    [ValueError]. *)
Theorem save_hash_unsupported_leaves_store (label text algorithm : str)
    (w : World) :
  algorithm ∉ ALGORITHMS →
  ∃ e w' evs,
    save_hash label text algorithm w = (Raise e, w')
    ∧ vault_file w' = vault_file w
    ∧ added w w' evs
    ∧ Forall (λ e, write_event e = false) evs
    ∧ ∀ v, stored w v → e = ValueError unsupported_algorithm.
Proof.
  intros Al. destruct (after_load_added w) as (evs & Ad & Fa).
  destruct (save_hash_unsupported label text algorithm w Al) as (e & Sa & Ex).
  exists e, (after_load w), evs. split; [done|].
  split; [apply after_load_file|]. split; [done|]. split; [|done].
  eapply Forall_impl; [exact Fa|]. by intros e' [? _].
Qed.

(** C3, as the code has it: for a label that is not in the store
    [verify_text] returns the dict of the two keys [status], which is
    [NOT_FOUND], and [message], whose text quotes the label; the dict
    has no [label] key.  It leaves the file as it was and computes no
    digest. *)
Theorem verify_text_not_found (label text : str) (w : World)
    (d : dict pyobj) :
  stored w (PDict d) → dict_get label d = None →
  ∃ r w' evs,
    verify_text label text w = (Return r, w')
    ∧ r = [(lit "status", PStr (lit "NOT_FOUND"));
           (lit "message",
            PStr (lit "No snapshot found for label '" ++ label ++ lit "'"))]
    ∧ dict_keys r = [lit "status"; lit "message"]
    ∧ dict_get (lit "label") r = None
    ∧ vault_file w' = vault_file w
    ∧ added w w' evs
    ∧ Forall (λ e, digest_event e = false) evs.
Proof.
  intros St No. destruct (after_load_added w) as (evs & Ad & Fa).
  eexists _, (after_load w), evs.
  split; [by apply (verify_text_absent label text w d)|].
  repeat (split; [done|]). split; [apply after_load_file|]. split; [done|].
  eapply Forall_impl; [exact Fa|]. by intros e [_ ?].
Qed.

(** C1, as the code has it: after [save_hash] of a text without
    surrogate, under a label in which no high surrogate is followed by
    a low one and an algorithm of [ALGORITHMS], [verify_text] of the
    same label and text returns status [INTACT] with [is_intact] true,
    and the one digest it computes is under the algorithm of the saved
    record. *)
Theorem save_then_verify_intact (label text algorithm : str) (w : World)
    (d : dict pyobj) :
  algorithm ∈ ALGORITHMS → encodable text → pair_free label →
  stored w (PDict d) →
  ∃ entry w1 r w2 evs data,
    encode_utf8 text = Some data
    ∧ save_hash label text algorithm w = (Return entry, w1)
    ∧ verify_text label text w1 = (Return r, w2)
    ∧ dict_get (lit "status") r = Some (PStr (lit "INTACT"))
    ∧ dict_get (lit "is_intact") r = Some (PBool true)
    ∧ getitem entry (lit "algorithm") = Return (PStr algorithm)
    ∧ dict_get (lit "algorithm") r = Some (PStr algorithm)
    ∧ added w1 w2 evs
    ∧ filter (λ e, digest_event e = true) evs = [Digest algorithm data].
Proof.
  intros Al En Pl St. destruct (encode_utf8_Some text En) as [data Ed].
  pose proof (stored_after_save label text algorithm data w d St Pl Al) as St1.
  destruct (after_load_added (after_save label text algorithm data d w))
    as (evs & Ad & Fa).
  eexists _, _, _, _, (evs ++ [Digest algorithm data]), data.
  split; [done|]. split; [by apply save_hash_run|].
  split; [eapply verify_text_snapshot; [exact St1|apply dict_get_set_eq|done..]|].
  split; [simpl; by rewrite bool_decide_eq_true_2|].
  split; [simpl; by rewrite bool_decide_eq_true_2|].
  split; [done|]. split; [done|]. split.
  - unfold added in *. rewrite trace_log, Ad. by rewrite <- app_assoc.
  - rewrite filter_app, no_digest_filter; [done|].
    eapply Forall_impl; [exact Fa|]. by intros e [_ ?].
Qed.

(** C10, as the code has it: the empty label is accepted: [save_hash]
    of a text without surrogate under the label [""] and an algorithm
    of [ALGORITHMS] returns, the store then holds the record under the
    key [""], and [verify_text] of [""] and the same text returns
    status [INTACT]. *)
Theorem empty_label_accepted (text algorithm : str) (w : World)
    (d : dict pyobj) :
  algorithm ∈ ALGORITHMS → encodable text → stored w (PDict d) →
  ∃ entry w1 d1 r w2,
    save_hash [] text algorithm w = (Return entry, w1)
    ∧ stored w1 (PDict d1)
    ∧ dict_get [] d1 = Some entry
    ∧ getitem entry (lit "label") = Return (PStr [])
    ∧ verify_text [] text w1 = (Return r, w2)
    ∧ dict_get (lit "status") r = Some (PStr (lit "INTACT"))
    ∧ dict_get (lit "is_intact") r = Some (PBool true).
Proof.
  intros Al En St. destruct (encode_utf8_Some text En) as [data Ed].
  pose proof (stored_after_save [] text algorithm data w d St I Al) as St1.
  eexists _, _, _, _, _.
  split; [by apply save_hash_run|]. split; [exact St1|].
  split; [apply dict_get_set_eq|]. split; [done|].
  split; [eapply verify_text_snapshot; [exact St1|apply dict_get_set_eq|done..]|].
  simpl. by rewrite bool_decide_eq_true_2.
Qed.

(** ** Sequences of saves and deletes *)

Lemma perform_run r w d :
  stored w (PDict d) → admissible r →
  ∃ w' d', perform r w = (Return tt, w') ∧ stored w' (PDict d')
    ∧ match r with
      | Save l t a =>
          ∃ data, encode_utf8 t = Some data
            ∧ d' = dict_set l (saved_entry l t a data w) d
      | Delete l => d' = dict_del l d
      end.
Proof.
  intros St Su. destruct r as [l t a|l]; simpl in *.
  - destruct Su as (Al & En & Pl). destruct (encode_utf8_Some t En) as [data Ed].
    eexists _, _.
    rewrite (bind_return _ _ _ _ _ (save_hash_run l t a data w d St Al Ed)).
    split; [done|]. split; [by apply stored_after_save|]. by exists data.
  - destruct (dict_get l d) as [e|] eqn:Lk.
    + eexists _, _.
      rewrite (bind_return _ _ _ _ _
                 (delete_snapshot_present l w d St ltac:(by rewrite Lk))).
      split; [done|]. split; [|done].
      apply stored_after_delete. by apply (stored_clean w).
    + eexists _, _.
      rewrite (bind_return _ _ _ _ _ (delete_snapshot_absent l w d St Lk)).
      split; [done|]. split; [|done].
      rewrite dict_del_absent by done. by apply stored_after_load.
Qed.

Lemma perform_all_run rs : ∀ w d,
  stored w (PDict d) → Forall admissible rs →
  ∃ w' d', perform_all rs w = (Return tt, w') ∧ stored w' (PDict d')
           ∧ ∀ l, settled rs d d' l.
Proof.
  induction rs as [|r rs IH]; intros w d St Su.
  - exists w, d. by repeat split.
  - apply Forall_cons in Su as [Su Sus].
    destruct (perform_run r w d St Su) as (w1 & d1 & R1 & St1 & Ef).
    destruct (IH w1 _ St1 Sus) as (w' & d' & R & St' & Se).
    exists w', d'. simpl. rewrite (bind_return _ _ _ _ _ R1).
    split; [done|]. split; [done|]. intros l. specialize (Se l).
    unfold settled in *. simpl.
    destruct (last_request rs l) as [r'|]; [done|].
    destruct (decide (request_label r = l)) as [<-|Ne].
    + destruct r as [l t a|l]; simpl in *.
      * destruct Ef as (data & Ed & ->). exists data. eexists. split; [done|].
        rewrite Se. apply dict_get_set_eq.
      * subst d1. rewrite Se. apply dict_get_del_eq.
    + rewrite Se. destruct r as [l' t a|l']; simpl in *.
      * destruct Ef as (data & Ed & ->). by apply dict_get_set_ne.
      * subst d1. by apply dict_get_del_ne.
Qed.

Lemma saved_labels_last rs : ∀ acc l,
  l ∈ saved_labels rs acc ↔
    match last_request rs l with
    | None => l ∈ acc
    | Some (Save _ _ _) => True
    | Some (Delete _) => False
    end.
Proof.
  induction rs as [|r rs IH]; intros acc l; simpl; [done|].
  destruct r as [l' t a|l']; rewrite IH; simpl;
    (destruct (last_request rs l) as [r'|]; [done|]);
    destruct (decide (l' = l)) as [->|Ne];
    rewrite ?elem_of_union, ?elem_of_difference, ?elem_of_singleton;
    intuition congruence.
Qed.

Lemma settled_keys rs d0 d :
  (∀ l, settled rs d0 d l) →
  list_to_set (dict_keys d) = saved_labels rs (list_to_set (dict_keys d0)).
Proof.
  intros Se. apply set_eq. intros l. rewrite saved_labels_last.
  specialize (Se l). unfold settled in Se.
  rewrite !elem_of_list_to_set, !dict_get_keys.
  destruct (last_request rs l) as [[l' t a|l']|].
  - destruct Se as (data & ts & _ & ->). by split.
  - rewrite Se. split; [apply is_Some_None|intros []].
  - by rewrite Se, elem_of_list_to_set, dict_get_keys.
Qed.

Lemma settled_labelled rs d0 d :
  labelled d0 → (∀ l, settled rs d0 d l) → labelled d.
Proof.
  intros La Se k e Lk. specialize (Se k). unfold settled in Se.
  destruct (last_request rs k) as [[l' t a|l']|].
  - destruct Se as (data & ts & _ & Se). rewrite Se in Lk.
    injection Lk as <-. by eexists.
  - congruence.
  - apply La. congruence.
Qed.

Lemma elem_of_values (d : dict pyobj) e :
  NoDup (dict_keys d) →
  e ∈ dict_values d ↔ ∃ k, dict_get k d = Some e.
Proof.
  intros Nd. unfold dict_values. rewrite list_elem_of_fmap. split.
  - intros ([k e'] & -> & In). exists k. by apply dict_elem_get.
  - intros [k Lk]. exists (k, e). split; [done|]. by apply dict_get_elem.
Qed.

Lemma labelled_values_keys d :
  NoDup (dict_keys d) → labelled d →
  label_of <$> dict_values d = (λ k, Some (PStr k)) <$> dict_keys d.
Proof.
  intros Nd La. unfold dict_values, dict_keys.
  rewrite <- !list_fmap_compose. apply Forall_fmap_ext, Forall_forall.
  intros [k e] In. simpl.
  destruct (La k e (dict_elem_get k e d Nd In)) as (fields & -> & Lk). done.
Qed.

Lemma last_request_elem rs l r :
  last_request rs l = Some r → r ∈ rs ∧ request_label r = l.
Proof.
  induction rs as [|r0 rs IH]; simpl; [done|].
  destruct (last_request rs l) as [r'|].
  - intros [= ->]. destruct IH as [In ?]; [done|]. split; [by right|done].
  - destruct (decide (request_label r0 = l)); [|done].
    intros [= ->]. split; [by left|done].
Qed.

Lemma stored_nodup w d : stored w (PDict d) → NoDup (dict_keys d).
Proof. intros St. by apply clean_dict, (stored_clean w). Qed.

(** C2, as the code has it: after any sequence of deletes and of saves
    of texts without surrogate under labels in which no high surrogate
    is followed by a low one, on a store whose records carry their
    labels, [list_snapshots] returns records of pairwise distinct
    labels, as many as the labels of the store and the labels saved
    that were not deleted since, whatever the number of saves; a label
    whose last request was a save has a record and the text of that
    save verifies [INTACT], and the record listed under a label holds
    the data of its last save, the saves before it left nothing. *)
Theorem one_record_per_label (rs : list request) (w : World)
    (d0 : dict pyobj) :
  stored w (PDict d0) → labelled d0 → Forall admissible rs →
  ∃ w1 snaps w2,
    perform_all rs w = (Return tt, w1)
    ∧ list_snapshots w1 = (Return snaps, w2)
    ∧ NoDup (label_of <$> snaps)
    ∧ length snaps = size (saved_labels rs (list_to_set (dict_keys d0)))
    ∧ (∀ l t a, last_request rs l = Some (Save l t a) →
         (∃ e, e ∈ snaps ∧ label_of e = Some (PStr l))
         ∧ ∃ r w3, verify_text l t w1 = (Return r, w3)
                   ∧ dict_get (lit "status") r = Some (PStr (lit "INTACT")))
    ∧ (∀ e, e ∈ snaps →
         ∃ l, label_of e = Some (PStr l)
           ∧ match last_request rs l with
             | Some (Save _ t a) =>
                 ∃ data ts, encode_utf8 t = Some data
                   ∧ e = snapshot l a (lit (hexdigest a data)) (length t) ts
             | Some (Delete _) => False
             | None => dict_get l d0 = Some e
             end).
Proof.
  intros St La Su.
  destruct (perform_all_run rs w d0 St Su) as (w1 & d & R & St1 & Se).
  pose proof (settled_labelled rs d0 d La Se) as La1.
  pose proof (stored_nodup w1 d St1) as Nd.
  exists w1, (dict_values d), (after_load w1).
  split; [done|]. split; [by apply list_snapshots_run|]. split.
  { rewrite labelled_values_keys by done.
    apply NoDup_fmap_2; [|done]. by intros k1 k2 [= ->]. }
  split.
  { unfold dict_values. rewrite length_fmap.
    rewrite <- (settled_keys rs d0 d Se), size_list_to_set by done.
    unfold dict_keys. by rewrite length_fmap. }
  split.
  - intros l t a Lr. specialize (Se l). unfold settled in Se. rewrite Lr in Se.
    destruct Se as (data & ts & Ed & Se). split.
    + eexists. split; [apply elem_of_values; [done|by exists l]|]. done.
    + apply last_request_elem in Lr as [In _].
      pose proof (proj1 (Forall_forall _ _) Su _ In) as (Al & _ & _).
      eexists _, _.
      split; [by apply (verify_text_snapshot l t data w1 d _ _ _ _ St1 Se)|].
      simpl. by rewrite bool_decide_eq_true_2.
  - intros e In. apply elem_of_values in In as [k Lk]; [|done].
    exists k. destruct (La1 k e Lk) as (fields & -> & Lf). split; [done|].
    specialize (Se k). unfold settled in Se.
    destruct (last_request rs k) as [[l' t a|l']|].
    + destruct Se as (data & ts & Ed & Se). exists data, ts. split; [done|].
      congruence.
    + congruence.
    + congruence.
Qed.

(** ** More on verifying, deleting and listing *)

Lemma compute_hash_fst text algorithm w w' :
  fst (compute_hash text algorithm w) = fst (compute_hash text algorithm w').
Proof.
  unfold compute_hash. destruct (existsb (is_str algorithm) ALGORITHMS); [|done].
  simpl. destruct algorithm; try done. by destruct (encode_utf8 text).
Qed.

(** The result of [verify_text] only depends on the record the store
    holds under the label. *)
Lemma verify_text_depends label text w1 d1 w2 d2 :
  stored w1 (PDict d1) → stored w2 (PDict d2) →
  dict_get label d1 = dict_get label d2 →
  fst (verify_text label text w1) = fst (verify_text label text w2).
Proof.
  intros St1 St2 Eq. unfold verify_text.
  rewrite (bind_return _ _ _ _ _ (load_vault_run w1 _ St1)).
  rewrite (bind_return _ _ _ _ _ (load_vault_run w2 _ St2)).
  cbv [bind lift contains getitem negb]. rewrite Eq.
  destruct (dict_get label d2) as [entry|]; [|done].
  destruct entry as [| | | | | |fields]; try done.
  destruct (dict_get (lit "algorithm") fields) as [algorithm|]; [|done].
  pose proof (compute_hash_fst text algorithm (after_load w1) (after_load w2)) as Ef.
  destruct (compute_hash text algorithm (after_load w1)) as [[h1|e1] w1'];
    destruct (compute_hash text algorithm (after_load w2)) as [[h2|e2] w2'];
    simpl in Ef; try done; [|simpl; congruence]. injection Ef as ->.
  destruct (dict_get (lit "hash") fields); [|done].
  destruct (dict_get (lit "length") fields); [|done].
  by destruct (dict_get (lit "timestamp") fields).
Qed.

(** X1: After [save_hash] of a text, [verify_text] of any text without
    surrogate under the same label returns [INTACT] when the digest of
    the new text is the saved one and [MODIFIED] when it is not, with
    both hashes and both lengths in the result. *)
Theorem verify_after_save_detects (label text text' algorithm : str)
    (w : World) (d : dict pyobj) :
  algorithm ∈ ALGORITHMS → encodable text → encodable text' →
  pair_free label → stored w (PDict d) →
  ∃ entry w1 r data data',
    encode_utf8 text = Some data ∧ encode_utf8 text' = Some data'
    ∧ save_hash label text algorithm w = (Return entry, w1)
    ∧ fst (verify_text label text' w1) = Return r
    ∧ dict_get (lit "status") r
      = Some (PStr (lit (if decide (lit (hexdigest algorithm data')
                                    = lit (hexdigest algorithm data))
                         then "INTACT" else "MODIFIED")))
    ∧ dict_get (lit "is_intact") r
      = Some (PBool (bool_decide (lit (hexdigest algorithm data')
                                  = lit (hexdigest algorithm data))))
    ∧ dict_get (lit "original_hash") r
      = Some (PStr (lit (hexdigest algorithm data)))
    ∧ dict_get (lit "current_hash") r
      = Some (PStr (lit (hexdigest algorithm data')))
    ∧ dict_get (lit "original_length") r = Some (PInt (Z.of_nat (length text)))
    ∧ dict_get (lit "current_length") r = Some (PInt (Z.of_nat (length text')))
    ∧ getitem entry (lit "timestamp")
      = match dict_get (lit "saved_at") r with
        | Some v => Return v
        | None => Raise (KeyError (lit "timestamp"))
        end.
Proof.
  intros Al En En' Pl St.
  destruct (encode_utf8_Some text En) as [data Ed].
  destruct (encode_utf8_Some text' En') as [data' Ed'].
  pose proof (stored_after_save label text algorithm data w d St Pl Al) as St1.
  eexists _, _, _, data, data'. split; [done|]. split; [done|].
  split; [by apply save_hash_run|].
  split.
  { erewrite verify_text_snapshot;
      [done|exact St1|apply dict_get_set_eq|done|exact Ed']. }
  simpl. split; [|split; [|done]].
  - rewrite decide_bool_decide.
    rewrite (bool_decide_ext (lit (hexdigest algorithm data) = lit (hexdigest algorithm data'))
               (lit (hexdigest algorithm data') = lit (hexdigest algorithm data)));
      [done|by split].
  - do 2 f_equal. apply bool_decide_ext. by split.
Qed.

(** X2: Deleting a saved label: [delete_snapshot] returns [True], after it
    [verify_text] of the label returns [NOT_FOUND] whatever the text,
    and a second [delete_snapshot] returns [False]. *)
Theorem delete_after_save (label text text' algorithm : str) (w : World)
    (d : dict pyobj) :
  algorithm ∈ ALGORITHMS → encodable text → pair_free label →
  stored w (PDict d) →
  ∃ entry w1 w2 r,
    save_hash label text algorithm w = (Return entry, w1)
    ∧ delete_snapshot label w1 = (Return true, w2)
    ∧ fst (verify_text label text' w2) = Return r
    ∧ dict_get (lit "status") r = Some (PStr (lit "NOT_FOUND"))
    ∧ fst (delete_snapshot label w2) = Return false.
Proof.
  intros Al En Pl St. destruct (encode_utf8_Some text En) as [data Ed].
  pose proof (stored_after_save label text algorithm data w d St Pl Al) as St1.
  set (d1 := dict_set label (saved_entry label text algorithm data w) d) in *.
  assert (In : is_Some (dict_get label d1))
    by (unfold d1; by rewrite dict_get_set_eq).
  pose proof (delete_snapshot_present label _ d1 St1 In) as De.
  eexists _, _, _, _. split; [by apply save_hash_run|].
  split; [exact De|].
  match type of De with _ = (_, ?w2) =>
    assert (St2 : stored w2 (PDict (dict_del label d1)))
      by (apply stored_after_delete; by apply (stored_clean _ _ St1))
  end.
  split.
  { erewrite verify_text_absent; [done|exact St2|apply dict_get_del_eq]. }
  split; [done|].
  erewrite delete_snapshot_absent; [done|exact St2|apply dict_get_del_eq].
Qed.

(** X3: [save_hash] under a label without surrogate pair and
    [delete_snapshot] of a label leave what [verify_text] returns for
    every other label as it was. *)
Theorem other_labels_untouched (label label' text text' algorithm : str)
    (w : World) (d : dict pyobj) :
  algorithm ∈ ALGORITHMS → pair_free label → stored w (PDict d) →
  label' ≠ label →
  fst (verify_text label' text' (snd (save_hash label text algorithm w)))
  = fst (verify_text label' text' w)
  ∧ fst (verify_text label' text' (snd (delete_snapshot label w)))
    = fst (verify_text label' text' w).
Proof.
  intros Al Pl St Ne. split.
  - destruct (decide (encodable text)) as [En|En].
    + destruct (encode_utf8_Some text En) as [data Ed].
      rewrite (save_hash_run label text algorithm data w d St Al Ed). simpl.
      eapply verify_text_depends; [by apply stored_after_save|exact St|].
      by apply dict_get_set_ne.
    + rewrite (save_hash_unencodable label text algorithm w _ St Al En). simpl.
      eapply verify_text_depends; [by apply stored_after_load|exact St|done].
  - destruct (dict_get label d) as [e|] eqn:Lk.
    + rewrite (delete_snapshot_present label w d St) by by rewrite Lk.
      simpl. eapply verify_text_depends;
        [apply stored_after_delete; by apply (stored_clean w)|exact St|].
      by apply dict_get_del_ne.
    + rewrite (delete_snapshot_absent label w d St Lk). simpl.
      eapply verify_text_depends; [by apply stored_after_load|exact St|done].
Qed.

Lemma reads_only_ret {A} (a : A) : reads_only (ret a).
Proof.
  intros w. split; [done|]. split; [done|]. exists []. split; [apply added_refl|done].
Qed.

Lemma reads_only_raise {A} e : reads_only (@raise A e).
Proof.
  intros w. split; [done|]. split; [done|]. exists []. split; [apply added_refl|done].
Qed.

Lemma reads_only_lift {A} (o : outcome A) : reads_only (lift o).
Proof.
  intros w. split; [done|]. split; [done|]. exists []. split; [apply added_refl|done].
Qed.

Lemma reads_only_bind {A B} (m : M A) (k : A → M B) :
  reads_only m → (∀ a, reads_only (k a)) → reads_only (bind m k).
Proof.
  intros Hm Hk w. unfold bind. specialize (Hm w).
  destruct (m w) as [[a|e] w1]; simpl in Hm; [|done].
  destruct Hm as (F1 & C1 & evs1 & A1 & W1).
  destruct (Hk a w1) as (F2 & C2 & evs2 & A2 & W2).
  split; [congruence|]. split; [congruence|]. exists (evs1 ++ evs2).
  split; [by eapply added_trans|]. by apply Forall_app.
Qed.

Lemma reads_only_load_vault : reads_only load_vault.
Proof.
  intros w. rewrite load_vault_world.
  split; [apply after_load_file|]. split; [apply after_load_clock|].
  destruct (after_load_added w) as (evs & Ad & Fa). exists evs. split; [done|].
  eapply Forall_impl; [exact Fa|]. by intros e [? _].
Qed.

Lemma reads_only_compute_hash text algorithm :
  reads_only (compute_hash text algorithm).
Proof.
  intros w. destruct (compute_hash_world text algorithm w) as [->|(a & data & ->)].
  - split; [done|]. split; [done|]. exists []. split; [apply added_refl|done].
  - split; [done|]. split; [done|]. exists [Digest a data].
    split; [apply added_log|by repeat constructor].
Qed.

Lemma reads_only_verify_text label text : reads_only (verify_text label text).
Proof.
  unfold verify_text.
  apply reads_only_bind; [apply reads_only_load_vault|]. intros vault.
  apply reads_only_bind; [apply reads_only_lift|]. intros present.
  destruct present; simpl; [|apply reads_only_ret].
  apply reads_only_bind; [apply reads_only_lift|]. intros entry.
  apply reads_only_bind; [apply reads_only_lift|]. intros algorithm.
  apply reads_only_bind; [apply reads_only_compute_hash|]. intros current_hash.
  apply reads_only_bind; [apply reads_only_lift|]. intros original_hash.
  apply reads_only_bind; [apply reads_only_lift|]. intros original_length.
  apply reads_only_bind; [apply reads_only_lift|]. intros saved_at.
  apply reads_only_ret.
Qed.

Lemma reads_only_list_snapshots : reads_only list_snapshots.
Proof.
  unfold list_snapshots.
  apply reads_only_bind; [apply reads_only_load_vault|]. intros vault.
  apply reads_only_lift.
Qed.

(** X4: [verify_text] and [list_snapshots] only read: in every world, the
    file and the clock are after the call what they were before it, and
    the call wrote nothing. *)
Theorem reads_never_write (label text : str) (w : World) :
  (vault_file (snd (verify_text label text w)) = vault_file w
   ∧ clock (snd (verify_text label text w)) = clock w
   ∧ ∃ evs, added w (snd (verify_text label text w)) evs
            ∧ Forall (λ e, write_event e = false) evs)
  ∧ (vault_file (snd (list_snapshots w)) = vault_file w
     ∧ clock (snd (list_snapshots w)) = clock w
     ∧ ∃ evs, added w (snd (list_snapshots w)) evs
              ∧ Forall (λ e, write_event e = false) evs).
Proof.
  split; [apply reads_only_verify_text|apply reads_only_list_snapshots].
Qed.

(** X5: On a file that [json.load] rejects, [save_hash], [verify_text],
    [list_snapshots] and [delete_snapshot] all raise [JSONDecodeError]
    once the file is read: no digest is computed, nothing is written
    and the file stays as it is. *)
Theorem corrupt_store_propagates (label text algorithm : str) (w : World) :
  vault_file w = Some Malformed →
  ∃ w',
    save_hash label text algorithm w = (Raise JSONDecodeError, w')
    ∧ verify_text label text w = (Raise JSONDecodeError, w')
    ∧ list_snapshots w = (Raise JSONDecodeError, w')
    ∧ delete_snapshot label w = (Raise JSONDecodeError, w')
    ∧ vault_file w' = Some Malformed
    ∧ clock w' = clock w
    ∧ added w w' [PathExists true; FileRead].
Proof.
  intros E. exists (after_load w).
  pose proof (load_vault_malformed w E) as Lo.
  split; [unfold save_hash; by rewrite (bind_raise _ _ _ _ _ Lo)|].
  split; [unfold verify_text; by rewrite (bind_raise _ _ _ _ _ Lo)|].
  split; [unfold list_snapshots; by rewrite (bind_raise _ _ _ _ _ Lo)|].
  split; [unfold delete_snapshot; by rewrite (bind_raise _ _ _ _ _ Lo)|].
  split; [by rewrite after_load_file|]. split; [apply after_load_clock|].
  unfold added, after_load. rewrite E. simpl. by rewrite <- app_assoc.
Qed.

(** X6: A record whose algorithm is not a name of [ALGORITHMS] makes
    [verify_text] of its label raise the unsupported-algorithm
    [ValueError] instead of returning a result; no digest is computed
    and the file stays as it is. *)
Theorem verify_text_stored_unsupported (label text : str) (w : World)
    (d fields : dict pyobj) (algorithm : pyobj) :
  stored w (PDict d) → dict_get label d = Some (PDict fields) →
  dict_get (lit "algorithm") fields = Some algorithm →
  (∀ name, algorithm = PStr name → name ∉ ALGORITHMS) →
  ∃ w' evs,
    verify_text label text w = (Raise (ValueError unsupported_algorithm), w')
    ∧ vault_file w' = vault_file w
    ∧ added w w' evs
    ∧ Forall (λ e, digest_event e = false) evs.
Proof.
  intros St Lk Fa Al. destruct (after_load_added w) as (evs & Ad & Fa').
  exists (after_load w), evs.
  split.
  { apply (verify_text_unsupported label text w d fields algorithm St Lk Fa).
    destruct algorithm as [| | | |name| |]; try done.
    rewrite algorithm_in. apply bool_decide_eq_false_2. by apply Al. }
  split; [apply after_load_file|]. split; [done|].
  eapply Forall_impl; [exact Fa'|]. by intros e [_ ?].
Qed.

(** X7: The number of records [list_snapshots] returns: [save_hash] adds
    one when the label is new and none when it is in the store,
    [delete_snapshot] removes one when the label is in the store and
    none when it is not. *)
Theorem list_snapshots_count (label text algorithm : str) (w : World)
    (d : dict pyobj) :
  algorithm ∈ ALGORITHMS → encodable text → pair_free label →
  stored w (PDict d) →
  ∃ snaps saved deleted,
    fst (list_snapshots w) = Return snaps
    ∧ fst (list_snapshots (snd (save_hash label text algorithm w)))
      = Return saved
    ∧ fst (list_snapshots (snd (delete_snapshot label w))) = Return deleted
    ∧ length saved
      = match dict_get label d with
        | Some _ => length snaps
        | None => S (length snaps)
        end
    ∧ length deleted
      = match dict_get label d with
        | Some _ => pred (length snaps)
        | None => length snaps
        end.
Proof.
  intros Al En Pl St. destruct (encode_utf8_Some text En) as [data Ed].
  pose proof (stored_nodup w d St) as Nd.
  exists (dict_values d),
    (dict_values (dict_set label (saved_entry label text algorithm data w) d)),
    (dict_values (dict_del label d)).
  split; [by rewrite (list_snapshots_run w d St)|].
  rewrite (save_hash_run label text algorithm data w d St Al Ed). cbn [snd].
  split.
  { by rewrite (list_snapshots_run _ _
                  (stored_after_save label text algorithm data w d St Pl Al)). }
  unfold dict_values. rewrite !length_fmap, length_dict_set, length_dict_del by done.
  split; [|done]. destruct (dict_get label d) as [e|] eqn:Lk.
  - rewrite (delete_snapshot_present label w d St) by by rewrite Lk.
    cbn [snd]. rewrite (list_snapshots_run _ (dict_del label d)); [done|].
    apply stored_after_delete. by apply (stored_clean w).
  - rewrite (delete_snapshot_absent label w d St Lk). cbn [snd].
    rewrite (list_snapshots_run _ _ (stored_after_load _ _ St)).
    by rewrite (dict_del_absent label d Lk).
Qed.

Lemma saved_labels_size rs : ∀ acc,
  size (saved_labels rs acc) ≤ size acc + save_calls rs.
Proof.
  induction rs as [|[l t a|l] rs IH]; intros acc; simpl; [lia|..].
  all: assert (Le : size (acc ∖ {[l]}) ≤ size acc)
         by (apply subseteq_size, subseteq_difference_l; reflexivity).
  - etrans; [apply IH|]. rewrite size_union_alt, size_singleton. lia.
  - etrans; [apply IH|]. lia.
Qed.

(** X8: A sequence of deletes and of saves that the store takes adds to
    the records that [list_snapshots] returns at most one per call of
    [save_hash]: on a store without file, there are never more records
    than saves. *)
Theorem snapshots_at_most_saves (rs : list request) (w : World)
    (d0 : dict pyobj) :
  stored w (PDict d0) → Forall admissible rs →
  ∃ w1 snaps,
    perform_all rs w = (Return tt, w1)
    ∧ fst (list_snapshots w1) = Return snaps
    ∧ length snaps ≤ length d0 + save_calls rs
    ∧ (vault_file w = None → length snaps ≤ save_calls rs).
Proof.
  intros St Su.
  destruct (perform_all_run rs w d0 St Su) as (w1 & d & R & St1 & Se).
  exists w1, (dict_values d). split; [done|].
  split; [by rewrite (list_snapshots_run w1 d)|].
  assert (Le : length (dict_values d) ≤ length d0 + save_calls rs).
  { assert (Sz : ∀ w' (d' : dict pyobj), stored w' (PDict d') →
              length d' = size (list_to_set (C := gset str) (dict_keys d'))).
    { intros w' d' St'. rewrite size_list_to_set by apply (stored_nodup w' d' St').
      unfold dict_keys. by rewrite length_fmap. }
    unfold dict_values. rewrite length_fmap, (Sz w1 d St1), (Sz w d0 St).
    rewrite (settled_keys rs d0 d Se). apply saved_labels_size. }
  split; [done|]. intros E. unfold stored in St. rewrite E in St.
  injection St as ->. simpl in Le. lia.
Qed.

(** X9: The record [save_hash] returns is the record of the store: it is
    among those [list_snapshots] returns next, it carries the label, the
    algorithm, the length of the text in characters and the hash
    [compute_hash] gives for the text. *)
Theorem save_hash_returns_stored (label text algorithm : str) (w : World)
    (d : dict pyobj) :
  algorithm ∈ ALGORITHMS → encodable text → pair_free label →
  stored w (PDict d) →
  ∃ entry w1 snaps h,
    save_hash label text algorithm w = (Return entry, w1)
    ∧ fst (list_snapshots w1) = Return snaps
    ∧ entry ∈ snaps
    ∧ getitem entry (lit "label") = Return (PStr label)
    ∧ getitem entry (lit "algorithm") = Return (PStr algorithm)
    ∧ getitem entry (lit "length") = Return (PInt (Z.of_nat (length text)))
    ∧ getitem entry (lit "hash") = Return (PStr h)
    ∧ fst (compute_hash text (PStr algorithm) w) = Return h
    ∧ ∀ e, e ∈ snaps → e = entry ∨ ∃ k, k ≠ label ∧ dict_get k d = Some e.
Proof.
  intros Al En Pl St. destruct (encode_utf8_Some text En) as [data Ed].
  pose proof (stored_after_save label text algorithm data w d St Pl Al) as St1.
  pose proof (stored_nodup _ _ St1) as Nd1.
  eexists _, _, _, _. split; [by apply save_hash_run|].
  split; [by rewrite (list_snapshots_run _ _ St1)|].
  split; [apply elem_of_values; [done|]; exists label; apply dict_get_set_eq|].
  repeat (split; [done|]).
  split; [by rewrite (compute_hash_run text algorithm data)|].
  intros e In. apply elem_of_values in In as [k Lk]; [|done].
  destruct (decide (label = k)) as [<-|Ne].
  - rewrite dict_get_set_eq in Lk. left. congruence.
  - rewrite dict_get_set_ne in Lk by done. right. by exists k.
Qed.

(** X10: [verify_text] after [save_hash] and [compare_texts] agree: the
    [is_intact] flag for a new text against the saved one is the
    [identical] flag of comparing the new text with the saved one under
    the same algorithm, and the hashes reported are the same. *)
Theorem verify_agrees_with_compare (label text text' algorithm : str)
    (w : World) (d : dict pyobj) :
  algorithm ∈ ALGORITHMS → encodable text → encodable text' →
  pair_free label → stored w (PDict d) →
  ∃ r c,
    fst (verify_text label text' (snd (save_hash label text algorithm w)))
    = Return r
    ∧ fst (compare_texts text' text algorithm w) = Return c
    ∧ dict_get (lit "is_intact") r = dict_get (lit "identical") c
    ∧ dict_get (lit "current_hash") r = dict_get (lit "hash_1") c
    ∧ dict_get (lit "original_hash") r = dict_get (lit "hash_2") c
    ∧ dict_get (lit "current_length") r = dict_get (lit "length_1") c
    ∧ dict_get (lit "original_length") r = dict_get (lit "length_2") c.
Proof.
  intros Al En En' Pl St.
  destruct (encode_utf8_Some text En) as [data Ed].
  destruct (encode_utf8_Some text' En') as [data' Ed'].
  pose proof (stored_after_save label text algorithm data w d St Pl Al) as St1.
  rewrite (save_hash_run label text algorithm data w d St Al Ed). simpl.
  eexists _, _. split.
  { erewrite verify_text_snapshot;
      [done|exact St1|apply dict_get_set_eq|done|exact Ed']. }
  unfold compare_texts.
  rewrite (bind_return _ _ _ _ _ (compute_hash_run text' algorithm data' _ Al Ed')).
  rewrite (bind_return _ _ _ _ _ (compute_hash_run text algorithm data _ Al Ed)).
  split; [done|]. simpl. split; [|done].
  do 2 f_equal. apply bool_decide_ext. by split.
Qed.

(** X11: [compare_texts] does not depend on the order of the two texts: the
    [identical] flag is the same, hashes and lengths change places. *)
Theorem compare_texts_symmetric (text1 text2 algorithm : str) (w : World) :
  algorithm ∈ ALGORITHMS → encodable text1 → encodable text2 →
  ∃ r r',
    fst (compare_texts text1 text2 algorithm w) = Return r
    ∧ fst (compare_texts text2 text1 algorithm w) = Return r'
    ∧ dict_get (lit "identical") r = dict_get (lit "identical") r'
    ∧ dict_get (lit "hash_1") r = dict_get (lit "hash_2") r'
    ∧ dict_get (lit "hash_2") r = dict_get (lit "hash_1") r'
    ∧ dict_get (lit "length_1") r = dict_get (lit "length_2") r'
    ∧ dict_get (lit "length_2") r = dict_get (lit "length_1") r'.
Proof.
  intros Al En1 En2.
  destruct (encode_utf8_Some text1 En1) as [data1 Ed1].
  destruct (encode_utf8_Some text2 En2) as [data2 Ed2].
  unfold compare_texts.
  rewrite (bind_return _ _ _ _ _ (compute_hash_run text1 algorithm data1 _ Al Ed1)).
  rewrite (bind_return _ _ _ _ _ (compute_hash_run text2 algorithm data2 _ Al Ed2)).
  rewrite (bind_return _ _ _ _ _ (compute_hash_run text2 algorithm data2 _ Al Ed2)).
  rewrite (bind_return _ _ _ _ _ (compute_hash_run text1 algorithm data1 _ Al Ed1)).
  eexists _, _. split; [done|]. split; [done|]. simpl.
  split; [|done]. do 2 f_equal. apply bool_decide_ext. by split.
Qed.

(** ** Texts and their bytes *)

Lemma to_N_byte_of_N n : (n < 256)%N → Byte.to_N (byte_of_N n) = n.
Proof.
  intros Lt. unfold byte_of_N. destruct (Byte.of_N n) as [b|] eqn:E; simpl.
  - by apply Byte.to_of_N.
  - apply Byte.of_N_None_iff in E. lia.
Qed.

Lemma utf8_head_char c bytes rest :
  utf8_of_char c = Some bytes → utf8_head (bytes ++ rest) = Some (c, rest).
Proof.
  unfold utf8_of_char, is_surrogate.
  pose proof (N.div_mod c 0x40 ltac:(done)) as D1.
  pose proof (N.mod_upper_bound c 0x40 ltac:(done)) as B1.
  pose proof (N.div_mod (c / 0x40) 0x40 ltac:(done)) as D2.
  pose proof (N.mod_upper_bound (c / 0x40) 0x40 ltac:(done)) as B2.
  pose proof (N.div_mod (c / 0x40 / 0x40) 0x40 ltac:(done)) as D3.
  pose proof (N.mod_upper_bound (c / 0x40 / 0x40) 0x40 ltac:(done)) as B3.
  replace (c / 0x1000)%N with (c / 0x40 / 0x40)%N by (by rewrite N.Div0.div_div).
  replace (c / 0x40000)%N with (c / 0x40 / 0x40 / 0x40)%N
    by (by rewrite !N.Div0.div_div).
  set (q1 := (c / 0x40)%N) in *. set (r1 := (c mod 0x40)%N) in *.
  set (q2 := (q1 / 0x40)%N) in *. set (r2 := (q1 mod 0x40)%N) in *.
  set (q3 := (q2 / 0x40)%N) in *. set (r3 := (q2 mod 0x40)%N) in *.
  clearbody q1 r1 q2 r2 q3 r3.
  destruct (c <? 0x80)%N eqn:E1; [|destruct (c <? 0x800)%N eqn:E2;
    [|destruct ((0xD800 <=? c) && (c <? 0xE000))%N eqn:E3;
      [done|destruct (c <? 0x10000)%N eqn:E4;
        [|destruct (c <? 0x110000)%N eqn:E5; [|done]]]]];
    rewrite ?N.ltb_lt, ?N.ltb_ge in *; intros [= <-]; simpl;
    rewrite !to_N_byte_of_N by lia.
  - by rewrite (proj2 (N.ltb_lt _ _)) by lia.
  - rewrite (proj2 (N.ltb_ge _ _)), (proj2 (N.ltb_lt _ _)) by lia.
    do 2 f_equal. lia.
  - rewrite (proj2 (N.ltb_ge _ 0x80)), (proj2 (N.ltb_ge _ 0xE0)),
      (proj2 (N.ltb_lt _ _)) by lia.
    do 2 f_equal. lia.
  - rewrite (proj2 (N.ltb_ge _ 0x80)), (proj2 (N.ltb_ge _ 0xE0)),
      (proj2 (N.ltb_ge _ 0xF0)) by lia.
    do 2 f_equal. lia.
Qed.

Lemma utf8_of_char_nonempty c bytes : utf8_of_char c = Some bytes → bytes ≠ [].
Proof.
  intros E. pose proof (utf8_head_char c bytes [] E) as H.
  intros ->. done.
Qed.

Lemma encode_utf8_inj text : ∀ text' data,
  encode_utf8 text = Some data → encode_utf8 text' = Some data → text = text'.
Proof.
  induction text as [|c text IH]; intros [|c' text'] data; simpl.
  - done.
  - intros [= <-]. destruct (utf8_of_char c') as [b'|] eqn:E'; [|done].
    destruct (encode_utf8 text'); [|done].
    destruct b' as [|? ?]; [by destruct (utf8_of_char_nonempty c' [] E')|done].
  - destruct (utf8_of_char c) as [b|] eqn:E; [|done].
    destruct (encode_utf8 text); [|done].
    destruct b as [|? ?]; [by destruct (utf8_of_char_nonempty c [] E)|].
    by intros [= <-] [=].
  - destruct (utf8_of_char c) as [b|] eqn:E; [|done].
    destruct (encode_utf8 text) as [dt|] eqn:Et; [|done].
    destruct (utf8_of_char c') as [b'|] eqn:E'; [|done].
    destruct (encode_utf8 text') as [dt'|] eqn:Et'; [|done].
    intros [= <-] [= Eq].
    pose proof (utf8_head_char c b dt E) as H.
    pose proof (utf8_head_char c' b' dt' E') as H'.
    rewrite Eq in H'. rewrite H in H'. injection H' as -> ->.
    f_equal. by apply (IH text' dt').
Qed.

Lemma lit_inj s s' : lit s = lit s' → s = s'.
Proof.
  revert s'. induction s as [|a s IH]; intros [|a' s']; simpl; try done.
  intros [= Ea Es]. f_equal; [|by apply IH].
  rewrite <- (ascii_N_embedding a), <- (ascii_N_embedding a'). by rewrite Ea.
Qed.

(** X12: A changed text is detected unless the digests collide: after
    [save_hash] of a text, [verify_text] of a different text under the
    label returns [MODIFIED] with [is_intact] false, provided the
    digest tells the bytes of the two texts apart; two different texts
    never have the same bytes. *)
Theorem modification_detected (label text text' algorithm : str)
    (w : World) (d : dict pyobj) :
  algorithm ∈ ALGORITHMS → encodable text → encodable text' →
  pair_free label → stored w (PDict d) → text' ≠ text →
  (∀ data data', encode_utf8 text = Some data →
     encode_utf8 text' = Some data' →
     hexdigest algorithm data' = hexdigest algorithm data → data' = data) →
  ∃ r,
    fst (verify_text label text' (snd (save_hash label text algorithm w)))
    = Return r
    ∧ dict_get (lit "status") r = Some (PStr (lit "MODIFIED"))
    ∧ dict_get (lit "is_intact") r = Some (PBool false)
    ∧ dict_get (lit "current_hash") r ≠ dict_get (lit "original_hash") r.
Proof.
  intros Al En En' Pl St Ne Co.
  destruct (encode_utf8_Some text En) as [data Ed].
  destruct (encode_utf8_Some text' En') as [data' Ed'].
  assert (Hd : lit (hexdigest algorithm data) ≠ lit (hexdigest algorithm data')).
  { intros E%lit_inj. apply Ne. symmetry in E.
    pose proof (Co data data' Ed Ed' E) as ->.
    by apply (encode_utf8_inj text' text data). }
  pose proof (stored_after_save label text algorithm data w d St Pl Al) as St1.
  rewrite (save_hash_run label text algorithm data w d St Al Ed). cbn [snd].
  eexists. split.
  { erewrite verify_text_snapshot;
      [done|exact St1|apply dict_get_set_eq|done|exact Ed']. }
  simpl. rewrite bool_decide_eq_false_2 by done.
  repeat (split; [done|]). congruence.
Qed.

Lemma length_utf8_of_char c bytes :
  utf8_of_char c = Some bytes →
  1 ≤ length bytes ∧ (length bytes = 1 ↔ (c <? 0x80)%N).
Proof.
  unfold utf8_of_char.
  destruct (c <? 0x80)%N; [|destruct (c <? 0x800)%N;
    [|destruct (is_surrogate c); [done|destruct (c <? 0x10000)%N;
      [|destruct (c <? 0x110000)%N; [|done]]]]];
    intros [= <-]; simpl; (split; [lia|]); split; try done; lia.
Qed.

Lemma length_encode_utf8 text : ∀ data,
  encode_utf8 text = Some data →
  length text ≤ length data ∧ (length data = length text ↔ isascii text).
Proof.
  unfold isascii. induction text as [|c text IH]; intros data; simpl.
  { intros [= <-]. done. }
  destruct (utf8_of_char c) as [bytes|] eqn:E; [|done].
  destruct (encode_utf8 text) as [dt|]; [|done]. intros [= <-].
  destruct (length_utf8_of_char c bytes E) as [Le1 Eq1].
  destruct (IH dt eq_refl) as [Le Eq]. rewrite length_app.
  split; [lia|]. rewrite andb_True, <- Eq, <- Eq1. lia.
Qed.

(** X13: The [length] of a record counts the characters of the text and
    the digest is taken over its bytes: the bytes are at least as many
    as the characters, and exactly as many when the text is ASCII
    only. *)
Theorem length_counts_characters (label text algorithm : str) (w : World)
    (d : dict pyobj) :
  algorithm ∈ ALGORITHMS → encodable text → stored w (PDict d) →
  ∃ entry w1 evs data,
    save_hash label text algorithm w = (Return entry, w1)
    ∧ added w w1 evs
    ∧ filter (λ e, digest_event e = true) evs = [Digest algorithm data]
    ∧ encode_utf8 text = Some data
    ∧ getitem entry (lit "length") = Return (PInt (Z.of_nat (length text)))
    ∧ length text ≤ length data
    ∧ (length data = length text ↔ isascii text).
Proof.
  intros Al En St. destruct (encode_utf8_Some text En) as [data Ed].
  destruct (after_load_added w) as (evs & Ad & Fa).
  pose proof (length_encode_utf8 text data Ed) as [Le Eq].
  eexists _, _, (evs ++ [_; _; _]), data.
  split; [by apply save_hash_run|]. split.
  { unfold added, after_save in *. simpl. by rewrite Ad, <- app_assoc. }
  split.
  { rewrite filter_app, no_digest_filter; [done|].
    eapply Forall_impl; [exact Fa|]. by intros e [_ ?]. }
  done.
Qed.

Lemma compute_all_hashes_run text data w :
  encode_utf8 text = Some data →
  compute_all_hashes text w
  = (Return ((λ a, (a, lit (hexdigest a data))) <$> ALGORITHMS),
     MkWorld (vault_file w) (clock w)
       (trace w ++ ((λ a, Digest a data) <$> ALGORITHMS))).
Proof.
  intros Ed. unfold compute_all_hashes, ALGORITHMS. cbn [dict_comprehension].
  assert (Run : ∀ a w0, bool_decide (a ∈ ALGORITHMS) →
            compute_hash text (PStr a) w0
            = (Return (lit (hexdigest a data)), log (Digest a data) w0)).
  { intros a w0 Al%bool_decide_unpack. by apply compute_hash_run. }
  rewrite (bind_return _ _ _ _ _ (Run (lit "md5") _ I)).
  rewrite (bind_return _ _ _ _ _ (Run (lit "sha1") _ I)).
  rewrite (bind_return _ _ _ _ _ (Run (lit "sha256") _ I)).
  rewrite (bind_return _ _ _ _ _ (Run (lit "sha512") _ I)).
  unfold ret, log. cbn [vault_file clock trace fmap list_fmap].
  by rewrite <- !app_assoc.
Qed.

Lemma compute_all_hashes_raise text w :
  ¬ encodable text →
  compute_all_hashes text w = (Raise UnicodeEncodeError, w).
Proof.
  intros En. unfold compute_all_hashes, ALGORITHMS. cbn [dict_comprehension].
  assert (Al : lit "md5" ∈ ALGORITHMS) by by left.
  by rewrite (bind_raise _ _ _ _ _
                (compute_hash_unencodable text (lit "md5") w Al En)).
Qed.

(** X14: On a text without surrogate [compute_all_hashes] asks
    [hashlib] for one digest of the bytes of the text per algorithm,
    in the order of [ALGORITHMS], and touches neither the file nor the
    clock; on a text with a surrogate it raises [UnicodeEncodeError]
    before any digest. *)
Theorem compute_all_hashes_effects (text : str) (w : World) :
  (encodable text →
   ∃ d w' data,
     encode_utf8 text = Some data
     ∧ compute_all_hashes text w = (Return d, w')
     ∧ vault_file w' = vault_file w
     ∧ clock w' = clock w
     ∧ added w w' ((λ a, Digest a data) <$> ALGORITHMS))
  ∧ (¬ encodable text →
     compute_all_hashes text w = (Raise UnicodeEncodeError, w)).
Proof.
  split.
  - intros En. destruct (encode_utf8_Some text En) as [data Ed].
    eexists _, _, data. split; [done|].
    split; [by apply compute_all_hashes_run|]. done.
  - apply compute_all_hashes_raise.
Qed.

(** ** The commands of [cli.py] *)

Lemma cli_bind_done {A B} (m : CLI A) (k : A → CLI B) c w a c' w' :
  m c w = (Done a, c', w') → cli_bind m k c w = k a c' w'.
Proof. intros E. unfold cli_bind. by rewrite E. Qed.

Lemma cli_bind_failed {A B} (m : CLI A) (k : A → CLI B) c w e c' w' :
  m c w = (Failed e, c', w') → cli_bind m k c w = (Failed e, c', w').
Proof. intros E. unfold cli_bind. by rewrite E. Qed.

Lemma cli_bind_print {B} s (k : unit → CLI B) c w :
  cli_bind (print s) k c w = k tt (MkConsole (stdin c) (stdout c ++ [s])) w.
Proof. done. Qed.

Lemma cli_bind_ret {A B} (a : A) (k : A → CLI B) c w :
  cli_bind (cli_ret a) k c w = k a c w.
Proof. done. Qed.

Lemma call_return {A} (m : M A) c w a w' :
  m w = (Return a, w') → call m c w = (Done a, c, w').
Proof. intros E. unfold call. by rewrite E. Qed.

Lemma call_raise {A} (m : M A) c w e w' :
  m w = (Raise e, w') → call m c w = (Failed e, c, w').
Proof. intros E. unfold call. by rewrite E. Qed.

Lemma cli_bind_call_lift {A B} (a : A) (k : A → CLI B) c w :
  cli_bind (call (lift (Return a))) k c w = k a c w.
Proof. done. Qed.

(** The text a command works on, and the console once it is chosen. *)
Lemma text_or_stdin_run text c w :
  text_or_stdin text c w
  = match text with
    | Some t =>
        if bool_decide (t = [])
        then (Done (hd [] (stdin c)), MkConsole (tl (stdin c)) (stdout c), w)
        else (Done t, c, w)
    | None => (Done (hd [] (stdin c)), MkConsole (tl (stdin c)) (stdout c), w)
    end.
Proof. destruct text as [t|]; [|done]. simpl. by case_bool_decide. Qed.

Lemma text_or_stdin_done text c w :
  ∃ t c1, text_or_stdin text c w = (Done t, c1, w) ∧ stdout c1 = stdout c.
Proof.
  rewrite text_or_stdin_run. destruct text as [t|]; [case_bool_decide|];
    by eexists _, _.
Qed.

Lemma for_each_print {A} (xs : list A) (body : A → CLI unit) (line : A → str)
    c w :
  (∀ x, body x = print (line x)) →
  for_each xs body c w
  = (Done tt, MkConsole (stdin c) (stdout c ++ (line <$> xs)), w).
Proof.
  intros Pr. revert c. induction xs as [|x xs IH]; intros c; simpl.
  - unfold cli_ret. rewrite app_nil_r. by destruct c.
  - rewrite Pr, cli_bind_print, IH. simpl. by rewrite <- app_assoc.
Qed.

Lemma getitem_snapshot label algorithm hash n timestamp :
  getitem (snapshot label algorithm hash n timestamp) (lit "label")
  = Return (PStr label)
  ∧ getitem (snapshot label algorithm hash n timestamp) (lit "algorithm")
    = Return (PStr algorithm)
  ∧ getitem (snapshot label algorithm hash n timestamp) (lit "hash")
    = Return (PStr hash)
  ∧ getitem (snapshot label algorithm hash n timestamp) (lit "timestamp")
    = Return (PStr timestamp).
Proof. by repeat split. Qed.


(** The two shapes of a result of [verify_text]. *)
Lemma verify_text_result label text w r w' :
  verify_text label text w = (Return r, w') →
  r = [(lit "status", PStr (lit "NOT_FOUND"));
       (lit "message",
        PStr (lit "No snapshot found for label '" ++ label ++ lit "'"))]
  ∨ ∃ (is_intact : bool) algorithm original_hash current_hash original_length
      saved_at,
      r = [(lit "status", PStr (lit (if is_intact then "INTACT" else "MODIFIED")));
           (lit "label", PStr label);
           (lit "algorithm", algorithm);
           (lit "original_hash", original_hash);
           (lit "current_hash", PStr current_hash);
           (lit "original_length", original_length);
           (lit "current_length", PInt (Z.of_nat (length text)));
           (lit "saved_at", saved_at);
           (lit "is_intact", PBool is_intact)].
Proof.
  unfold verify_text, bind, lift.
  destruct (load_vault w) as [[vault|e] w0]; [|done].
  destruct (contains vault label) as [[|]|e]; simpl; [| |done].
  - destruct (getitem vault label) as [entry|e]; [|done].
    destruct (getitem entry (lit "algorithm")) as [algorithm|e]; [|done].
    destruct (compute_hash text algorithm w0) as [[current_hash|e] w1]; [|done].
    destruct (getitem entry (lit "hash")) as [original_hash|e]; [|done].
    destruct (getitem entry (lit "length")) as [original_length|e]; [|done].
    destruct (getitem entry (lit "timestamp")) as [saved_at|e]; [|done].
    intros [= <- <-]. right. by eexists _, _, _, _, _, _.
  - intros [= <- <-]. by left.
Qed.

Lemma cmd_verify_run label text c w t c1 :
  text_or_stdin text c w = (Done t, c1, w) → stdout c1 = stdout c →
  match verify_text label t w with
  | (Raise e, w') => cmd_verify label text c w = (Failed e, c1, w')
  | (Return r, w') =>
      ∃ out, cmd_verify label text c w
             = (Done tt, MkConsole (stdin c1) (stdout c ++ out), w')
        ∧ (r = [(lit "status", PStr (lit "NOT_FOUND"));
                (lit "message",
                 PStr (lit "No snapshot found for label '" ++ label ++ lit "'"))] →
           out = [NL ++ lit "  " ++ YELLOW ++ WARNING_SIGN ++ lit " "
                  ++ lit "No snapshot found for label '" ++ label ++ lit "'"
                  ++ RESET ++ NL])
        ∧ (∀ (is_intact : bool) algorithm original_hash current_hash
             original_length saved_at,
             r = [(lit "status", PStr (lit (if is_intact then "INTACT" else "MODIFIED")));
                  (lit "label", PStr label);
                  (lit "algorithm", algorithm);
                  (lit "original_hash", original_hash);
                  (lit "current_hash", PStr current_hash);
                  (lit "original_length", original_length);
                  (lit "current_length", PInt (Z.of_nat (length t)));
                  (lit "saved_at", saved_at);
                  (lit "is_intact", PBool is_intact)] →
             out = verify_report is_intact label (str_of algorithm)
                     (str_of original_hash) current_hash
                     (str_of original_length) (lit (pretty (Z.of_nat (length t))))
                     (str_of saved_at))
  end.
Proof.
  intros Tx Out. unfold cmd_verify. rewrite (cli_bind_done _ _ _ _ _ _ _ Tx).
  destruct (verify_text label t w) as [[r|e] w'] eqn:Ve.
  - rewrite (cli_bind_done _ _ _ _ _ _ _ (call_return _ c1 _ _ _ Ve)).
    destruct (verify_text_result label t w r w' Ve)
      as [Er|(is_intact & al & oh & ch & ol & sa & Er)].
    + assert (L1 : dict_get (lit "status") r = Some (PStr (lit "NOT_FOUND")))
        by by rewrite Er.
      assert (L2 : dict_get (lit "message") r
                   = Some (PStr (lit "No snapshot found for label '"
                                 ++ label ++ lit "'"))) by by rewrite Er.
      unfold result_get. rewrite L1, cli_bind_ret.
      change (is_str (PStr (lit "NOT_FOUND")) (lit "NOT_FOUND")) with true.
      cbv iota. rewrite L2, cli_bind_ret. unfold print. cbn [str_of].
      rewrite Out. eexists. split; [reflexivity|].
      split; [intros _; by rewrite <- !app_assoc|].
      intros ? ? ? ? ? ? Er'. rewrite Er in Er'. discriminate.
    + assert (L1 : dict_get (lit "status") r
                   = Some (PStr (lit (if is_intact then "INTACT" else "MODIFIED"))))
        by by rewrite Er.
      assert (L2 : dict_get (lit "is_intact") r = Some (PBool is_intact))
        by by rewrite Er.
      assert (L3 : dict_get (lit "label") r = Some (PStr label)) by by rewrite Er.
      assert (L4 : dict_get (lit "algorithm") r = Some al) by by rewrite Er.
      assert (L5 : dict_get (lit "original_hash") r = Some oh) by by rewrite Er.
      assert (L6 : dict_get (lit "current_hash") r = Some (PStr ch))
        by by rewrite Er.
      assert (L7 : dict_get (lit "original_length") r = Some ol) by by rewrite Er.
      assert (L8 : dict_get (lit "current_length") r
                   = Some (PInt (Z.of_nat (length t)))) by by rewrite Er.
      assert (L9 : dict_get (lit "saved_at") r = Some sa) by by rewrite Er.
      assert (Ns : is_str (PStr (lit (if is_intact then "INTACT" else "MODIFIED")))
                     (lit "NOT_FOUND") = false) by by destruct is_intact.
      unfold result_get.
      rewrite L1, cli_bind_ret, Ns, L2, cli_bind_ret. cbn [truthy].
      exists (verify_report is_intact label (str_of al) (str_of oh) ch
                (str_of ol) (lit (pretty (Z.of_nat (length t)))) (str_of sa)).
      split; [|split].
      * destruct is_intact;
          rewrite cli_bind_print, L3, cli_bind_ret, cli_bind_print,
            L4, cli_bind_ret, cli_bind_print, L5, cli_bind_ret, cli_bind_print,
            L6, cli_bind_ret, cli_bind_print, L7, cli_bind_ret, cli_bind_print,
            L8, cli_bind_ret, cli_bind_print, L9, cli_bind_ret;
          unfold print, verify_report; cbn [stdin stdout str_of];
          rewrite Out, <- !app_assoc; reflexivity.
      * intros Er'. rewrite Er in Er'. by destruct is_intact.
      * intros ? ? ? ? ? ? Er'. rewrite Er in Er'.
        injection Er' as Ei <- <- <- <- <-.
        by destruct is_intact, is_intact0.
  - by rewrite (cli_bind_failed _ _ _ _ _ _ _ (call_raise _ c1 _ _ _ Ve)).
Qed.



(** X19: [cmd_hash] with [--all] does not look at its algorithm: on a
    text without surrogate it prints a title and one line per
    algorithm of [ALGORITHMS], the name padded to eight columns and the
    hash, even when the algorithm given is not one of them; without
    [--all] it prints the name and the hash for an algorithm of
    [ALGORITHMS], and fails with the unsupported-algorithm
    [ValueError] exactly for an algorithm outside it.  On a text with
    a surrogate it fails with [UnicodeEncodeError] and prints nothing.
    It never touches the file. *)
Theorem cmd_hash_all_ignores_algorithm (text : option str)
    (algorithm : str) (c : Console) (w : World) :
  ∃ t c1,
    text_or_stdin text c w = (Done t, c1, w) ∧ stdout c1 = stdout c
    ∧ (∀ data, encode_utf8 t = Some data →
         ∃ w', cmd_hash text algorithm true c w
               = (Done tt,
                  MkConsole (stdin c1)
                    (stdout c
                     ++ (NL ++ BOLD ++ lit "Hashes for input text:" ++ RESET)
                     :: ((λ a, lit "  " ++ CYAN ++ ljust 8 a ++ RESET
                               ++ lit " " ++ lit (hexdigest a data))
                           <$> ALGORITHMS)),
                  w')
               ∧ vault_file w' = vault_file w)
    ∧ (∀ data, encode_utf8 t = Some data → algorithm ∈ ALGORITHMS →
         cmd_hash text algorithm false c w
         = (Done tt,
            MkConsole (stdin c1)
              (stdout c
               ++ [NL ++ lit "  " ++ CYAN ++ algorithm ++ RESET ++ lit ": "
                   ++ BOLD ++ lit (hexdigest algorithm data) ++ RESET]),
            log (Digest algorithm data) w))
    ∧ (fst (fst (cmd_hash text algorithm false c w))
       = Failed (ValueError unsupported_algorithm)
       ↔ algorithm ∉ ALGORITHMS)
    ∧ (¬ encodable t →
       cmd_hash text algorithm true c w = (Failed UnicodeEncodeError, c1, w)
       ∧ (algorithm ∈ ALGORITHMS →
          cmd_hash text algorithm false c w
          = (Failed UnicodeEncodeError, c1, w)))
    ∧ ∀ all, vault_file (snd (cmd_hash text algorithm all c w)) = vault_file w.
Proof.
  destruct (text_or_stdin_done text c w) as (t & c1 & Tx & Out).
  exists t, c1. split; [done|]. split; [done|].
  assert (All : ∀ data, encode_utf8 t = Some data →
            cmd_hash text algorithm true c w
            = (Done tt,
               MkConsole (stdin c1)
                 (stdout c
                  ++ (NL ++ BOLD ++ lit "Hashes for input text:" ++ RESET)
                  :: ((λ a, lit "  " ++ CYAN ++ ljust 8 a ++ RESET
                            ++ lit " " ++ lit (hexdigest a data))
                        <$> ALGORITHMS)),
               MkWorld (vault_file w) (clock w)
                 (trace w ++ ((λ a, Digest a data) <$> ALGORITHMS)))).
  { intros data Ed. unfold cmd_hash. rewrite (cli_bind_done _ _ _ _ _ _ _ Tx).
    rewrite (cli_bind_done _ _ _ _ _ _ _
               (call_return _ c1 _ _ _ (compute_all_hashes_run t data w Ed))).
    rewrite cli_bind_print.
    rewrite (for_each_print _ _
               (λ p, lit "  " ++ CYAN ++ ljust 8 p.1 ++ RESET ++ lit " " ++ p.2))
      by by intros [a h].
    cbn [stdin stdout]. rewrite Out, <- app_assoc, <- list_fmap_compose.
    reflexivity. }
  assert (AllRaise : ¬ encodable t →
            cmd_hash text algorithm true c w = (Failed UnicodeEncodeError, c1, w)).
  { intros En. unfold cmd_hash. rewrite (cli_bind_done _ _ _ _ _ _ _ Tx).
    by rewrite (cli_bind_failed _ _ _ _ _ _ _
                  (call_raise _ c1 _ _ _ (compute_all_hashes_raise t w En))). }
  assert (One : cmd_hash text algorithm false c w
                = cli_bind (call (compute_hash t (PStr algorithm)))
                    (λ h, print (NL ++ lit "  " ++ CYAN ++ algorithm ++ RESET
                                 ++ lit ": " ++ BOLD ++ h ++ RESET)) c1 w).
  { unfold cmd_hash. by rewrite (cli_bind_done _ _ _ _ _ _ _ Tx). }
  split; [|split; [|split; [|split]]].
  - intros data Ed. eexists. split; [by apply All|done].
  - intros data Ed Al. rewrite One.
    rewrite (cli_bind_done _ _ _ _ _ _ _
               (call_return _ c1 _ _ _ (compute_hash_run t algorithm data w Al Ed))).
    unfold print. by rewrite Out.
  - rewrite One. destruct (decide (algorithm ∈ ALGORITHMS)) as [Al|Al].
    + destruct (decide (encodable t)) as [En|En].
      * destruct (encode_utf8_Some t En) as [data Ed].
        rewrite (cli_bind_done _ _ _ _ _ _ _
                   (call_return _ c1 _ _ _ (compute_hash_run t algorithm data w Al Ed))).
        by split.
      * rewrite (cli_bind_failed _ _ _ _ _ _ _
                   (call_raise _ c1 _ _ _ (compute_hash_unencodable t algorithm w Al En))).
        by split.
    + rewrite (cli_bind_failed _ _ _ _ _ _ _
                 (call_raise _ c1 _ _ _ (compute_hash_unsupported t algorithm w Al))).
      by split.
  - intros En. split; [by apply AllRaise|]. intros Al. rewrite One.
    by rewrite (cli_bind_failed _ _ _ _ _ _ _
                  (call_raise _ c1 _ _ _ (compute_hash_unencodable t algorithm w Al En))).
  - intros [|].
    + destruct (decide (encodable t)) as [En|En].
      * destruct (encode_utf8_Some t En) as [data Ed]. by rewrite (All data Ed).
      * by rewrite (AllRaise En).
    + rewrite One. unfold cli_bind, call.
      pose proof (reads_only_compute_hash t (PStr algorithm) w) as (Fi & _).
      by destruct (compute_hash t (PStr algorithm) w) as [[h|e] w'].
Qed.

(** ** Surrogates, and stores that are not vaults *)

(** X20: A text with a surrogate is never saved, verified or compared:
    under an algorithm of [ALGORITHMS], [save_hash] raises
    [UnicodeEncodeError] once the store is loaded, before any digest,
    any reading of the clock and any write, and so do [verify_text] on
    a record of a supported algorithm and [compare_texts] on its first
    text. *)
Theorem surrogate_text_not_saved (label text algorithm : str) (w : World)
    (v : pyobj) :
  algorithm ∈ ALGORITHMS → ¬ encodable text → stored w v →
  ∃ w' evs,
    save_hash label text algorithm w = (Raise UnicodeEncodeError, w')
    ∧ vault_file w' = vault_file w
    ∧ clock w' = clock w
    ∧ added w w' evs
    ∧ Forall (λ e, write_event e = false ∧ digest_event e = false) evs
    ∧ (∀ text2, compare_texts text text2 algorithm w
                = (Raise UnicodeEncodeError, w))
    ∧ (∀ d l h n ts, v = PDict d →
         dict_get label d = Some (snapshot l algorithm h n ts) →
         verify_text label text w = (Raise UnicodeEncodeError, w')).
Proof.
  intros Al En St. destruct (after_load_added w) as (evs & Ad & Fa).
  exists (after_load w), evs.
  split; [by apply (save_hash_unencodable label text algorithm w v)|].
  split; [apply after_load_file|]. split; [apply after_load_clock|].
  split; [done|]. split; [done|]. split.
  - intros text2. unfold compare_texts.
    by rewrite (bind_raise _ _ _ _ _
                  (compute_hash_unencodable text algorithm w Al En)).
  - intros d l h n ts -> Lk. unfold verify_text.
    rewrite (bind_return _ _ _ _ _ (load_vault_run w _ St)).
    cbv [bind lift contains getitem negb]. rewrite Lk.
    unfold snapshot. cbv beta iota.
    assert (Ga : ∀ fields : dict pyobj,
              dict_get (lit "algorithm")
                ((lit "label", PStr l) :: (lit "algorithm", PStr algorithm)
                 :: fields) = Some (PStr algorithm)) by done.
    by rewrite Ga, (compute_hash_unencodable text algorithm _ Al En).
Qed.

Lemma dict_set_new {V} k (v : V) (d : dict V) :
  dict_get k d = None → dict_set k v d = d ++ [(k, v)].
Proof.
  induction d as [|[k' v'] d IH]; simpl; [done|].
  destruct (decide (k = k')); [done|]. intros No. by rewrite IH.
Qed.

Lemma pair_free_key k (v : pyobj) d :
  clean (PDict d) → dict_get k d = Some v → pair_free k.
Proof.
  intros [_ Fa]%clean_dict Lk. apply dict_get_elem in Lk.
  rewrite Forall_forall in Fa. by destruct (Fa _ Lk).
Qed.

(** What is read back after a write of a clean dict to which an item
    of a new key was added. *)
Lemma json_load_dump_set k v d :
  clean (PDict d) → dict_get k d = None →
  json_load (json_dump (PDict (dict_set k v d)))
  = PDict (dict_set (join_surrogates k) (json_load (json_dump v)) d).
Proof.
  intros Cl No. pose proof (json_load_dump (PDict d) Cl) as Ro.
  rewrite dict_set_new by done.
  change (json_load (json_dump (PDict (d ++ [(k, v)]))))
    with (PDict (dict_of_items
                   (map (λ kv, (join_surrogates kv.1, json_load kv.2))
                      (map (λ kv, (utf16 kv.1, json_dump kv.2))
                         (d ++ [(k, v)]))))).
  change (json_load (json_dump (PDict d)))
    with (PDict (dict_of_items
                   (map (λ kv, (join_surrogates kv.1, json_load kv.2))
                      (map (λ kv, (utf16 kv.1, json_dump kv.2)) d)))) in Ro.
  injection Ro as Ro. rewrite !map_app. unfold dict_of_items in *.
  rewrite foldl_app, Ro. simpl. by rewrite join_utf16.
Qed.

(** X21: A label in which a high surrogate is followed by a low one is
    saved under another label: after [save_hash] of a text without
    surrogate under such a label, the store holds the record under the
    label with every such pair joined into one code point, and so does
    the [label] of the record; [verify_text] of the label as given
    returns [NOT_FOUND], and [verify_text] of the joined label returns
    [INTACT]. *)
Theorem paired_label_saved_joined (label text algorithm : str) (w : World)
    (d : dict pyobj) :
  algorithm ∈ ALGORITHMS → encodable text → ¬ pair_free label →
  stored w (PDict d) →
  ∃ entry w1 data r r',
    encode_utf8 text = Some data
    ∧ join_surrogates label ≠ label
    ∧ save_hash label text algorithm w = (Return entry, w1)
    ∧ getitem entry (lit "label") = Return (PStr label)
    ∧ stored w1
        (PDict (dict_set (join_surrogates label)
                  (snapshot (join_surrogates label) algorithm
                     (lit (hexdigest algorithm data)) (length text)
                     (lit (isoformat_now (clock w)))) d))
    ∧ fst (verify_text label text w1) = Return r
    ∧ dict_get (lit "status") r = Some (PStr (lit "NOT_FOUND"))
    ∧ fst (verify_text (join_surrogates label) text w1) = Return r'
    ∧ dict_get (lit "status") r' = Some (PStr (lit "INTACT")).
Proof.
  intros Al En Pl St. destruct (encode_utf8_Some text En) as [data Ed].
  pose proof (stored_clean w _ St) as Cl.
  assert (No : dict_get label d = None).
  { destruct (dict_get label d) as [e|] eqn:Lk; [|done].
    destruct Pl. by apply (pair_free_key label e d). }
  assert (Nj : join_surrogates label ≠ label).
  { intros E. apply Pl. rewrite <- E. apply pair_free_join. }
  set (j := join_surrogates label).
  set (e' := snapshot j algorithm (lit (hexdigest algorithm data)) (length text)
               (lit (isoformat_now (clock w)))).
  assert (St1 : stored (after_save label text algorithm data d w)
                  (PDict (dict_set j e' d))).
  { unfold stored, after_save. cbn [vault_file].
    rewrite json_load_dump_set by done. do 2 f_equal.
    unfold saved_entry, snapshot, e'. cbn [json_dump json_load map fst snd].
    rewrite !join_utf16.
    rewrite !(join_pair_free (lit _)) by apply pair_free_lit.
    rewrite (join_pair_free algorithm) by by apply pair_free_algorithm.
    reflexivity. }
  assert (Nk : dict_get label (dict_set j e' d) = None).
  { rewrite dict_get_set_ne by done. exact No. }
  eexists _, _, data, _, _. split; [done|]. split; [done|].
  split; [by apply save_hash_run|]. split; [done|]. split; [exact St1|].
  split; [by rewrite (verify_text_absent label text _ _ St1 Nk)|].
  split; [done|].
  split.
  { erewrite verify_text_snapshot;
      [done|exact St1|apply dict_get_set_eq|done|exact Ed]. }
  simpl. by rewrite bool_decide_eq_true_2.
Qed.

(** X22: A file that holds JSON but no vault is taken as it is.  A
    record without the key [algorithm] makes [verify_text] raise
    [KeyError], and a record that is no dict [TypeError], before any
    digest.  On a JSON list, [verify_text] of a label that is not an
    element returns [NOT_FOUND], [delete_snapshot] returns [False],
    [list_snapshots] raises [AttributeError], and [save_hash] raises
    [TypeError] after the digest and the reading of the clock, the
    file left as it was. *)
Theorem store_not_a_vault (label text algorithm : str) (w : World) :
  (∀ d fields, stored w (PDict d) → dict_get label d = Some (PDict fields) →
     dict_get (lit "algorithm") fields = None →
     verify_text label text w
     = (Raise (KeyError (lit "algorithm")), after_load w))
  ∧ (∀ d entry, stored w (PDict d) → dict_get label d = Some entry →
       (∀ fields, entry ≠ PDict fields) →
       verify_text label text w = (Raise TypeError, after_load w))
  ∧ (∀ items, stored w (PList items) →
       existsb (λ v, is_str v label) items = false →
       verify_text label text w
       = (Return [(lit "status", PStr (lit "NOT_FOUND"));
                  (lit "message",
                   PStr (lit "No snapshot found for label '" ++ label
                         ++ lit "'"))],
          after_load w)
       ∧ delete_snapshot label w = (Return false, after_load w))
  ∧ (∀ items, stored w (PList items) →
       list_snapshots w = (Raise AttributeError, after_load w))
  ∧ (∀ items data, stored w (PList items) → algorithm ∈ ALGORITHMS →
       encode_utf8 text = Some data →
       ∃ w', save_hash label text algorithm w = (Raise TypeError, w')
             ∧ vault_file w' = vault_file w
             ∧ clock w' = S (clock w)
             ∧ trace w'
               = trace (after_load w) ++ [Digest algorithm data; ClockRead]).
Proof.
  split; [|split; [|split; [|split]]].
  - intros d fields St Lk Fa. unfold verify_text.
    rewrite (bind_return _ _ _ _ _ (load_vault_run w _ St)).
    cbv [bind lift contains getitem negb]. rewrite Lk. cbv beta iota.
    by rewrite Fa.
  - intros d entry St Lk Nd. unfold verify_text.
    rewrite (bind_return _ _ _ _ _ (load_vault_run w _ St)).
    cbv [bind lift contains getitem negb]. rewrite Lk. cbv beta iota.
    destruct entry as [| | | | | |fields]; try done. by destruct (Nd fields).
  - intros items St Ne. split.
    + unfold verify_text.
      rewrite (bind_return _ _ _ _ _ (load_vault_run w _ St)).
      cbv [bind lift contains negb]. by rewrite Ne.
    + unfold delete_snapshot.
      rewrite (bind_return _ _ _ _ _ (load_vault_run w _ St)).
      cbv [bind lift contains]. by rewrite Ne.
  - intros items St. unfold list_snapshots.
    by rewrite (bind_return _ _ _ _ _ (load_vault_run w _ St)).
  - intros items data St Al Ed. unfold save_hash.
    rewrite (bind_return _ _ _ _ _ (load_vault_run w _ St)).
    rewrite (bind_return _ _ _ _ _ (compute_hash_run text algorithm data _ Al Ed)).
    eexists. split; [reflexivity|]. cbn.
    rewrite after_load_file, after_load_clock, <- app_assoc. done.
Qed.

End Hasher.

(** ** The model on the reference instance *)

Abbreviation ref_fresh := (MkWorld None 0 []).
Abbreviation ref_compute_hash := (compute_hash Ref.hexdigest).
Abbreviation ref_compute_all_hashes := (compute_all_hashes Ref.hexdigest).
Abbreviation ref_save_hash := (save_hash Ref.hexdigest Ref.isoformat_now).
Abbreviation ref_verify_text := (verify_text Ref.hexdigest).
Abbreviation ref_compare_texts := (compare_texts Ref.hexdigest).
Abbreviation ref_perform_all := (perform_all Ref.hexdigest Ref.isoformat_now).
Abbreviation ref_cmd_save :=
  (cmd_save Ref.hexdigest Ref.isoformat_now Ref.str_of_items).

(** A vault of one record, and a world whose file holds it. *)
Abbreviation ref_vault :=
  ([(lit "to_delete",
     snapshot (lit "to_delete") (lit "sha256") (lit "sha256:bye") 3
       (lit "tick-"))] : dict pyobj).
Abbreviation ref_world :=
  (MkWorld (Some (Document (json_dump (PDict ref_vault)))) 1 []).

(** A vault whose record names an algorithm that is not supported. *)
Abbreviation ref_legacy_vault :=
  ([(lit "old",
     snapshot (lit "old") (lit "crc32") (lit "crc32:x") 1 (lit "tick-"))]
   : dict pyobj).
Abbreviation ref_legacy_world :=
  (MkWorld (Some (Document (json_dump (PDict ref_legacy_vault)))) 1 []).

(** The label of the two surrogates U+D83D U+DD10, the label of the one
    code point U+1F510 they encode in UTF-16, and the text of the lone
    surrogate U+DC80. *)
Abbreviation surrogate_pair := ([0xD83D; 0xDD10]%N : str).
Abbreviation joined_pair := ([0x1F510]%N : str).
Abbreviation lone_surrogate := ([0xDC80]%N : str).

Ltac by_computation := apply (bool_decide_unpack _); vm_compute; exact I.
Ltac run := lazy; reflexivity.

Lemma ref_fresh_stored : stored ref_fresh (PDict []).
Proof. reflexivity. Qed.

Lemma ref_world_stored : stored ref_world (PDict ref_vault).
Proof. by vm_compute. Qed.

Lemma ref_legacy_stored : stored ref_legacy_world (PDict ref_legacy_vault).
Proof. by vm_compute. Qed.

Lemma sha256_supported : lit "sha256" ∈ ALGORITHMS.
Proof. by_computation. Qed.

Lemma md5_supported : lit "md5" ∈ ALGORITHMS.
Proof. by_computation. Qed.

(** The scenario of the specification: a snapshot of a sentence, then
    the sentence with its first letter in lower case. *)
Example quick_brown_fox :
  ∃ entry w1,
    ref_save_hash (lit "doc") (lit "The quick brown fox") (lit "sha256") ref_fresh
    = (Return entry, w1)
    ∧ dict_get (lit "status")
        (match fst (ref_verify_text (lit "doc") (lit "The quick brown fox") w1)
         with Return r => r | Raise _ => [] end)
      = Some (PStr (lit "INTACT"))
    ∧ (let r := match fst (ref_verify_text (lit "doc")
                             (lit "the quick brown fox") w1)
                with Return r => r | Raise _ => [] end in
       dict_get (lit "status") r = Some (PStr (lit "MODIFIED"))
       ∧ dict_get (lit "is_intact") r = Some (PBool false)
       ∧ dict_get (lit "original_length") r = Some (PInt 19)
       ∧ dict_get (lit "current_length") r = Some (PInt 19)).
Proof. eexists _, _. split; [run|]. vm_compute. by repeat split. Qed.

(** ** Where the claims as stated fail *)

(** C1, a text with a surrogate and a label with a surrogate pair:
    [sha256] is supported, yet [save_hash] of the text of the lone
    surrogate U+DC80 raises [UnicodeEncodeError] and writes nothing;
    and after [save_hash] under the label U+D83D U+DD10 the file holds
    the record under the label U+1F510, so that [verify_text] of the
    label and text just saved returns [NOT_FOUND]. *)
Lemma save_then_verify_surrogates :
  (lit "sha256" ∈ ALGORITHMS)
  ∧ ref_save_hash (lit "doc") lone_surrogate (lit "sha256") ref_fresh
    = (Raise UnicodeEncodeError, MkWorld None 0 [PathExists false])
  ∧ ∃ entry w1 r w2,
      ref_save_hash surrogate_pair (lit "hello") (lit "sha256") ref_fresh
      = (Return entry, w1)
      ∧ stored w1
          (PDict [(joined_pair,
                   snapshot joined_pair (lit "sha256") (lit "sha256:hello") 5
                     (lit "tick-"))])
      ∧ ref_verify_text surrogate_pair (lit "hello") w1 = (Return r, w2)
      ∧ dict_get (lit "status") r = Some (PStr (lit "NOT_FOUND"))
      ∧ dict_get (lit "is_intact") r = None.
Proof.
  split; [exact sha256_supported|]. split; [run|].
  eexists _, _, _, _. split; [run|]. split; [by vm_compute|].
  split; [run|]. split; run.
Qed.

(** C2, two labels that are read back as one: after a save under the
    label U+D83D U+DD10 and a save under the label U+1F510, two
    distinct labels were saved and none deleted, yet [list_snapshots]
    returns one record, and [verify_text] of the first label and its
    text returns [NOT_FOUND]: its record is not retrievable. *)
Lemma two_labels_one_record :
  surrogate_pair ≠ joined_pair
  ∧ size (saved_labels [Save surrogate_pair (lit "first") (lit "sha256");
                        Save joined_pair (lit "second") (lit "sha256")] ∅) = 2
  ∧ ∃ w1 snaps w2 r w3,
      ref_perform_all [Save surrogate_pair (lit "first") (lit "sha256");
                       Save joined_pair (lit "second") (lit "sha256")] ref_fresh
      = (Return tt, w1)
      ∧ list_snapshots w1 = (Return snaps, w2)
      ∧ length snaps = 1
      ∧ ref_verify_text surrogate_pair (lit "first") w1 = (Return r, w3)
      ∧ dict_get (lit "status") r = Some (PStr (lit "NOT_FOUND")).
Proof.
  split; [done|]. split; [by vm_compute|].
  eexists _, _, _, _, _. split; [run|]. split; [run|].
  split; [run|]. split; run.
Qed.

(** C3, a label that was never saved: the result of [verify_text] has
    no [label] key, so it is not a result that carries the label. *)
Lemma verify_text_not_found_no_label :
  ∃ r,
    fst (ref_verify_text (lit "nonexistent") (lit "some text") ref_fresh)
    = Return r
    ∧ dict_get (lit "status") r = Some (PStr (lit "NOT_FOUND"))
    ∧ dict_get (lit "label") r = None
    ∧ ¬ not_found_with_label (lit "nonexistent") r.
Proof.
  eexists. split; [run|]. split; [run|]. split; [run|].
  intros (_ & L & _). discriminate L.
Qed.

(** C4, a text with a surrogate: [sha256] is supported, yet
    [compute_hash] of the text of the lone surrogate U+DC80 returns no
    digest: it raises [UnicodeEncodeError], and no digest was asked of
    [hashlib]. *)
Lemma compute_hash_surrogate_raises :
  (lit "sha256" ∈ ALGORITHMS)
  ∧ encode_utf8 lone_surrogate = None
  ∧ ref_compute_hash lone_surrogate (PStr (lit "sha256")) ref_fresh
    = (Raise UnicodeEncodeError, ref_fresh).
Proof. split; [exact sha256_supported|]. split; run. Qed.

(** C6, a mapping with a surrogate pair in a key: after [save_vault]
    has written the dict of the one key U+D83D U+DD10, [load_vault]
    returns the dict of the one key U+1F510, which is another dict. *)
Lemma load_after_persist_joins_pair :
  ∃ w1 w2,
    save_vault (PDict [(surrogate_pair, PInt 1)]) ref_fresh = (Return tt, w1)
    ∧ load_vault w1 = (Return (PDict [(joined_pair, PInt 1)]), w2)
    ∧ PDict [(joined_pair, PInt 1)] ≠ PDict [(surrogate_pair, PInt 1)].
Proof. eexists _, _. split; [run|]. split; [run|]. done. Qed.

(** C7, a text with a surrogate: under the supported [sha256],
    [compare_texts] of the text of the lone surrogate U+DC80 with
    itself returns no result, so no [identical] flag: it raises
    [UnicodeEncodeError]. *)
Lemma compare_texts_surrogate_raises :
  (lit "sha256" ∈ ALGORITHMS)
  ∧ ref_compare_texts lone_surrogate lone_surrogate (lit "sha256") ref_fresh
    = (Raise UnicodeEncodeError, ref_fresh).
Proof. split; [exact sha256_supported|run]. Qed.

(** C8, a text with a surrogate: [compute_all_hashes] of the text of
    the lone surrogate U+DCFF, which a command-line argument of the
    one byte 0xFF gives, returns no mapping: it raises
    [UnicodeEncodeError]. *)
Lemma compute_all_hashes_surrogate_raises :
  ref_compute_all_hashes [0xDCFF%N] ref_fresh
  = (Raise UnicodeEncodeError, ref_fresh).
Proof. run. Qed.

(** C10, a text with a surrogate: under the empty label and the
    supported [sha256], [save_hash] of the text of the lone surrogate
    U+DC80 does not succeed: it raises [UnicodeEncodeError] and the
    store has no file still. *)
Lemma empty_label_surrogate_text :
  (lit "sha256" ∈ ALGORITHMS)
  ∧ ref_save_hash [] lone_surrogate (lit "sha256") ref_fresh
    = (Raise UnicodeEncodeError, MkWorld None 0 [PathExists false]).
Proof. split; [exact sha256_supported|run]. Qed.

(** ** The theorems at concrete inputs *)

Lemma save_then_verify_intact_witness :
  lit "md5" ∈ ALGORITHMS
  ∧ encodable (lit "test") ∧ pair_free (lit "snap_md5")
  ∧ ∃ entry w1 r w2,
      ref_save_hash (lit "snap_md5") (lit "test") (lit "md5") ref_fresh
      = (Return entry, w1)
      ∧ ref_verify_text (lit "snap_md5") (lit "test") w1 = (Return r, w2)
      ∧ dict_get (lit "status") r = Some (PStr (lit "INTACT"))
      ∧ dict_get (lit "algorithm") r = Some (PStr (lit "md5")).
Proof.
  assert (En : encodable (lit "test")) by by vm_compute.
  assert (Pl : pair_free (lit "snap_md5")) by by vm_compute.
  split; [exact md5_supported|]. split; [exact En|]. split; [exact Pl|].
  destruct (save_then_verify_intact Ref.hexdigest Ref.isoformat_now
              (lit "snap_md5") (lit "test") (lit "md5") ref_fresh []
              md5_supported En Pl ref_fresh_stored)
    as (entry & w1 & r & w2 & evs & data & _ & Sa & Ve & St & _ & _ & Ra & _).
  exists entry, w1, r, w2. by repeat split.
Defined.

Lemma one_record_per_label_witness :
  save_calls [Save (lit "over") (lit "version 1") (lit "sha256");
              Save (lit "over") (lit "version 2") (lit "md5");
              Save (lit "a") (lit "text a") (lit "sha256");
              Delete (lit "a")] = 3
  ∧ ∃ w1 snaps w2,
      ref_perform_all
        [Save (lit "over") (lit "version 1") (lit "sha256");
         Save (lit "over") (lit "version 2") (lit "md5");
         Save (lit "a") (lit "text a") (lit "sha256");
         Delete (lit "a")] ref_fresh
      = (Return tt, w1)
      ∧ list_snapshots w1 = (Return snaps, w2)
      ∧ length snaps = 1.
Proof.
  split; [reflexivity|].
  destruct (one_record_per_label Ref.hexdigest Ref.isoformat_now
              [Save (lit "over") (lit "version 1") (lit "sha256");
               Save (lit "over") (lit "version 2") (lit "md5");
               Save (lit "a") (lit "text a") (lit "sha256");
               Delete (lit "a")] ref_fresh [])
    as (w1 & snaps & w2 & Pe & Li & _ & Le & _).
  - exact ref_fresh_stored.
  - intros k e Lk. discriminate Lk.
  - repeat constructor; try by_computation; by vm_compute.
  - exists w1, snaps, w2. split; [exact Pe|]. split; [exact Li|].
    rewrite Le. by vm_compute.
Defined.

Lemma verify_text_not_found_witness :
  ∃ w',
    ref_verify_text (lit "nonexistent") (lit "some text") ref_fresh
    = (Return [(lit "status", PStr (lit "NOT_FOUND"));
               (lit "message",
                PStr (lit "No snapshot found for label 'nonexistent'"))],
       w')
    ∧ vault_file w' = None.
Proof.
  destruct (verify_text_not_found Ref.hexdigest (lit "nonexistent")
              (lit "some text") ref_fresh [] ref_fresh_stored eq_refl)
    as (r & w' & evs & Ve & -> & _ & _ & Fi & _).
  exists w'. split; [exact Ve|exact Fi].
Defined.


Lemma load_after_persist_witness :
  fst (load_vault ref_fresh) = Return (PDict [])
  ∧ ∃ w1 w2,
      save_vault (PDict ref_vault) ref_fresh = (Return tt, w1)
      ∧ load_vault w1 = (Return (PDict ref_vault), w2).
Proof.
  destruct load_after_persist as (Ab & Ro & _).
  split; [by apply Ab|]. apply Ro. by vm_compute.
Defined.

Lemma compute_all_hashes_covers_witness :
  encodable (lit "hello")
  ∧ ∃ d w',
      ref_compute_all_hashes (lit "hello") ref_fresh = (Return d, w')
      ∧ dict_keys d = ALGORITHMS
      ∧ dict_get (lit "md5") d = Some (lit "md5:hello").
Proof.
  assert (En : encodable (lit "hello")) by by vm_compute.
  split; [exact En|].
  destruct (compute_all_hashes_covers Ref.hexdigest (lit "hello") ref_fresh En)
    as (d & w' & Co & Ke & _ & Va).
  exists d, w'. split; [exact Co|]. split; [exact Ke|].
  destruct (Va (lit "md5") md5_supported) as (h & Lk & Ch).
  rewrite Lk. f_equal. specialize (Ch ref_fresh). vm_compute in Ch.
  injection Ch as <-. reflexivity.
Defined.

Lemma save_hash_unsupported_leaves_store_witness :
  (lit "fakehash" ∉ ALGORITHMS)
  ∧ ∃ w',
      ref_save_hash (lit "x") (lit "hello") (lit "fakehash") ref_fresh
      = (Raise (ValueError unsupported_algorithm), w')
      ∧ vault_file w' = None.
Proof.
  assert (Al : lit "fakehash" ∉ ALGORITHMS) by by_computation.
  split; [exact Al|].
  destruct (save_hash_unsupported_leaves_store Ref.hexdigest Ref.isoformat_now
              (lit "x") (lit "hello") (lit "fakehash") ref_fresh Al)
    as (e & w' & evs & Sa & Fi & _ & _ & Ex).
  exists w'. rewrite <- (Ex (PDict []) ref_fresh_stored).
  split; [exact Sa|exact Fi].
Defined.

Lemma empty_label_accepted_witness :
  lit "sha256" ∈ ALGORITHMS ∧ encodable (lit "hello")
  ∧ ∃ entry w1 r w2,
      ref_save_hash [] (lit "hello") (lit "sha256") ref_fresh
      = (Return entry, w1)
      ∧ ref_verify_text [] (lit "hello") w1 = (Return r, w2)
      ∧ dict_get (lit "status") r = Some (PStr (lit "INTACT")).
Proof.
  assert (En : encodable (lit "hello")) by by vm_compute.
  split; [exact sha256_supported|]. split; [exact En|].
  destruct (empty_label_accepted Ref.hexdigest Ref.isoformat_now
              (lit "hello") (lit "sha256") ref_fresh []
              sha256_supported En ref_fresh_stored)
    as (entry & w1 & d1 & r & w2 & Sa & _ & _ & _ & Ve & St & _).
  exists entry, w1, r, w2. by repeat split.
Defined.

(** ** The further theorems at concrete inputs *)

Lemma verify_after_save_detects_witness :
  ∃ entry w1 r,
    ref_save_hash (lit "snap3") (lit "hello") (lit "sha256") ref_fresh
    = (Return entry, w1)
    ∧ fst (ref_verify_text (lit "snap3") (lit "hello world") w1) = Return r
    ∧ dict_get (lit "status") r = Some (PStr (lit "MODIFIED"))
    ∧ dict_get (lit "original_length") r = Some (PInt 5)
    ∧ dict_get (lit "current_length") r = Some (PInt 11).
Proof.
  destruct (verify_after_save_detects Ref.hexdigest Ref.isoformat_now
              (lit "snap3") (lit "hello") (lit "hello world") (lit "sha256")
              ref_fresh [] sha256_supported)
    as (entry & w1 & r & data & data' & Ed & Ed' & Sa & Ve & St & _ & _ & _
        & Lo & Lc & _); [by vm_compute..|exact ref_fresh_stored|].
  exists entry, w1, r. split; [exact Sa|]. split; [exact Ve|].
  vm_compute in Ed, Ed'. injection Ed as <-. injection Ed' as <-.
  split; [exact St|]. by split.
Defined.

Lemma delete_after_save_witness :
  ∃ entry w1 w2 r,
    ref_save_hash (lit "to_delete") (lit "bye") (lit "sha256") ref_fresh
    = (Return entry, w1)
    ∧ delete_snapshot (lit "to_delete") w1 = (Return true, w2)
    ∧ fst (ref_verify_text (lit "to_delete") (lit "bye") w2) = Return r
    ∧ dict_get (lit "status") r = Some (PStr (lit "NOT_FOUND")).
Proof.
  destruct (delete_after_save Ref.hexdigest Ref.isoformat_now
              (lit "to_delete") (lit "bye") (lit "bye") (lit "sha256")
              ref_fresh [] sha256_supported)
    as (entry & w1 & w2 & r & Sa & De & Ve & St & _);
    [by vm_compute..|exact ref_fresh_stored|].
  by exists entry, w1, w2, r.
Defined.

Lemma other_labels_untouched_witness :
  fst (ref_verify_text (lit "to_delete") (lit "bye")
         (snd (ref_save_hash (lit "b") (lit "text b") (lit "sha256") ref_world)))
  = fst (ref_verify_text (lit "to_delete") (lit "bye") ref_world).
Proof.
  apply (other_labels_untouched Ref.hexdigest Ref.isoformat_now
           (lit "b") (lit "to_delete") (lit "text b") (lit "bye") (lit "sha256")
           ref_world ref_vault sha256_supported).
  - by vm_compute.
  - exact ref_world_stored.
  - by_computation.
Defined.

Lemma corrupt_store_propagates_witness :
  ∃ w',
    ref_save_hash (lit "x") (lit "hello") (lit "sha256")
      (MkWorld (Some Malformed) 0 [])
    = (Raise JSONDecodeError, w')
    ∧ vault_file w' = Some Malformed.
Proof.
  destruct (corrupt_store_propagates Ref.hexdigest Ref.isoformat_now
              (lit "x") (lit "hello") (lit "sha256")
              (MkWorld (Some Malformed) 0 []) eq_refl)
    as (w' & Sa & _ & _ & _ & Fi & _).
  by exists w'.
Defined.

Lemma verify_text_stored_unsupported_witness :
  ∃ w',
    ref_verify_text (lit "old") (lit "x") ref_legacy_world
    = (Raise (ValueError unsupported_algorithm), w').
Proof.
  destruct (verify_text_stored_unsupported Ref.hexdigest (lit "old") (lit "x")
              ref_legacy_world ref_legacy_vault _ (PStr (lit "crc32"))
              ref_legacy_stored eq_refl eq_refl)
    as (w' & evs & Ve & _).
  - intros name [= <-]. by_computation.
  - by exists w'.
Defined.

Lemma list_snapshots_count_witness :
  ∃ saved deleted,
    fst (list_snapshots
           (snd (ref_save_hash (lit "to_delete") (lit "new") (lit "sha256")
                   ref_world))) = Return saved
    ∧ fst (list_snapshots (snd (delete_snapshot (lit "to_delete") ref_world)))
      = Return deleted
    ∧ length saved = 1 ∧ length deleted = 0.
Proof.
  destruct (list_snapshots_count Ref.hexdigest Ref.isoformat_now
              (lit "to_delete") (lit "new") (lit "sha256") ref_world ref_vault
              sha256_supported)
    as (snaps & saved & deleted & Li & Sa & De & Ls & Ld);
    [by vm_compute..|exact ref_world_stored|].
  exists saved, deleted. split; [exact Sa|]. split; [exact De|].
  assert (Le : length snaps = 1).
  { vm_compute in Li. by injection Li as <-. }
  rewrite Le in Ls, Ld. by split.
Defined.

Lemma snapshots_at_most_saves_witness :
  ∃ w1 snaps,
    ref_perform_all [Save (lit "a") (lit "text a") (lit "sha256");
                     Save (lit "a") (lit "text b") (lit "md5");
                     Delete (lit "b")] ref_fresh
    = (Return tt, w1)
    ∧ fst (list_snapshots w1) = Return snaps
    ∧ length snaps ≤ 2.
Proof.
  destruct (snapshots_at_most_saves Ref.hexdigest Ref.isoformat_now
              [Save (lit "a") (lit "text a") (lit "sha256");
               Save (lit "a") (lit "text b") (lit "md5"); Delete (lit "b")]
              ref_fresh [] ref_fresh_stored)
    as (w1 & snaps & Pe & Li & _ & Le).
  - repeat constructor; try by_computation; by vm_compute.
  - exists w1, snaps. split; [exact Pe|]. split; [exact Li|]. by apply Le.
Defined.

Lemma save_hash_returns_stored_witness :
  ∃ entry w1 snaps,
    ref_save_hash (lit "mysnap") (lit "original text") (lit "sha256") ref_fresh
    = (Return entry, w1)
    ∧ fst (list_snapshots w1) = Return snaps
    ∧ entry ∈ snaps
    ∧ getitem entry (lit "length") = Return (PInt 13).
Proof.
  destruct (save_hash_returns_stored Ref.hexdigest Ref.isoformat_now
              (lit "mysnap") (lit "original text") (lit "sha256") ref_fresh []
              sha256_supported)
    as (entry & w1 & snaps & h & Sa & Li & In & _ & _ & Le & _);
    [by vm_compute..|exact ref_fresh_stored|].
  by exists entry, w1, snaps.
Defined.

Lemma verify_agrees_with_compare_witness :
  ∃ r c,
    fst (ref_verify_text (lit "snap4") (lit "Hello world")
           (snd (ref_save_hash (lit "snap4") (lit "Hello World") (lit "sha256")
                   ref_fresh)))
    = Return r
    ∧ fst (ref_compare_texts (lit "Hello world") (lit "Hello World")
             (lit "sha256") ref_fresh)
      = Return c
    ∧ dict_get (lit "is_intact") r = dict_get (lit "identical") c.
Proof.
  destruct (verify_agrees_with_compare Ref.hexdigest Ref.isoformat_now
              (lit "snap4") (lit "Hello World") (lit "Hello world")
              (lit "sha256") ref_fresh [] sha256_supported)
    as (r & c & Ve & Co & Eq & _);
    [by vm_compute..|exact ref_fresh_stored|].
  by exists r, c.
Defined.

Lemma compare_texts_symmetric_witness :
  ∃ r r',
    fst (ref_compare_texts (lit "text one") (lit "text two") (lit "sha256")
           ref_fresh) = Return r
    ∧ fst (ref_compare_texts (lit "text two") (lit "text one") (lit "sha256")
             ref_fresh) = Return r'
    ∧ dict_get (lit "identical") r = dict_get (lit "identical") r'.
Proof.
  destruct (compare_texts_symmetric Ref.hexdigest (lit "text one")
              (lit "text two") (lit "sha256") ref_fresh sha256_supported)
    as (r & r' & C1 & C2 & Eq & _); [by vm_compute..|].
  by exists r, r'.
Defined.

Lemma modification_detected_witness :
  ∃ r,
    fst (ref_verify_text (lit "snap5") (lit "hello  world")
           (snd (ref_save_hash (lit "snap5") (lit "hello world") (lit "sha256")
                   ref_fresh)))
    = Return r
    ∧ dict_get (lit "status") r = Some (PStr (lit "MODIFIED")).
Proof.
  destruct (modification_detected Ref.hexdigest Ref.isoformat_now
              (lit "snap5") (lit "hello world") (lit "hello  world")
              (lit "sha256") ref_fresh [] sha256_supported)
    as (r & Ve & St & _).
  - by vm_compute.
  - by vm_compute.
  - by vm_compute.
  - exact ref_fresh_stored.
  - intros E. by vm_compute in E.
  - intros data data' Ed Ed' E. vm_compute in Ed, Ed'.
    injection Ed as <-. injection Ed' as <-. by vm_compute in E.
  - by exists r.
Defined.

Lemma length_counts_characters_witness :
  ∃ entry w1,
    ref_save_hash (lit "snap") (lit "hello") (lit "sha256") ref_fresh
    = (Return entry, w1)
    ∧ getitem entry (lit "length") = Return (PInt 5).
Proof.
  destruct (length_counts_characters Ref.hexdigest Ref.isoformat_now
              (lit "snap") (lit "hello") (lit "sha256") ref_fresh []
              sha256_supported)
    as (entry & w1 & evs & data & Sa & _ & _ & _ & Le & _);
    [by vm_compute|exact ref_fresh_stored|].
  by exists entry, w1.
Defined.



Lemma surrogate_text_not_saved_witness :
  ¬ encodable lone_surrogate
  ∧ ∃ w',
      ref_save_hash (lit "doc") lone_surrogate (lit "sha256") ref_fresh
      = (Raise UnicodeEncodeError, w')
      ∧ vault_file w' = None
      ∧ clock w' = 0.
Proof.
  assert (En : ¬ encodable lone_surrogate) by by vm_compute.
  split; [exact En|].
  destruct (surrogate_text_not_saved Ref.hexdigest Ref.isoformat_now
              (lit "doc") lone_surrogate (lit "sha256") ref_fresh (PDict [])
              sha256_supported En ref_fresh_stored)
    as (w' & evs & Sa & Fi & Cl & _).
  by exists w'.
Defined.

Lemma paired_label_saved_joined_witness :
  ¬ pair_free surrogate_pair
  ∧ join_surrogates surrogate_pair = joined_pair
  ∧ ∃ entry w1 r,
      ref_save_hash surrogate_pair (lit "hello") (lit "sha256") ref_fresh
      = (Return entry, w1)
      ∧ fst (ref_verify_text surrogate_pair (lit "hello") w1) = Return r
      ∧ dict_get (lit "status") r = Some (PStr (lit "NOT_FOUND")).
Proof.
  assert (Pl : ¬ pair_free surrogate_pair) by by vm_compute.
  split; [exact Pl|]. split; [reflexivity|].
  destruct (paired_label_saved_joined Ref.hexdigest Ref.isoformat_now
              surrogate_pair (lit "hello") (lit "sha256") ref_fresh []
              sha256_supported)
    as (entry & w1 & data & r & r' & _ & _ & Sa & _ & _ & Ve & St & _);
    [by vm_compute|exact Pl|exact ref_fresh_stored|].
  by exists entry, w1, r.
Defined.
